(** * Verification of glasskube's web template registry
    (internal/web/templates.go)

    The development embeds the template registry of the glasskube web UI:
    the markdown renderer with its AST transformer, the helper functions of
    the template function map, the composition of the base layout, the pages
    and the components, and the watcher that recompiles them. *)

From Stdlib Require Import Ascii String.
From stdpp Require Import base option list strings gmap.

Local Open Scope list_scope.
Set Warnings "-register-all".

(** * Go preliminaries *)

(** A Go call either returns or panics. *)
Inductive result (A : Type) : Type :=
  | Ok (a : A)
  | Panic (msg : string).
Arguments Ok {A} a.
Arguments Panic {A} msg.

#[global] Instance result_ret : MRet result := fun A a => Ok a.
#[global] Instance result_bind : MBind result := fun A B k r =>
  match r with
  | Ok a => k a
  | Panic msg => Panic msg
  end.

(** Go [error] values: [None] is [nil]. A combined error of go.uber.org/multierr
    keeps the errors it was built from, in order. *)
Inductive error : Type :=
  | errorString (msg : string)
  | multiError (errs : list error).

(** * goldmark's document tree *)

Module ast.

Inductive NodeKind : Type :=
  | KindDocument | KindTextBlock | KindParagraph | KindHeading
  | KindThematicBreak | KindCodeBlock | KindFencedCodeBlock
  | KindBlockquote | KindList | KindListItem | KindHTMLBlock
  | KindText | KindString | KindCodeSpan | KindEmphasis
  | KindLink | KindImage | KindAutoLink | KindRawHTML.

Record Attribute : Type := mkAttribute { Name : string; Value : string }.

(** A node with its kind, its attributes and its children, first child
    first. *)
Inductive Node : Type :=
  | mkNode (kind : NodeKind) (attributes : list Attribute) (children : list Node).

Definition Kind (n : Node) : NodeKind :=
  match n with mkNode k _ _ => k end.
Definition Attributes (n : Node) : list Attribute :=
  match n with mkNode _ a _ => a end.
Definition Children (n : Node) : list Node :=
  match n with mkNode _ _ c => c end.

(** Modelled from the spec: [BaseNode.SetAttributeString] of goldmark (a
    dependency, not under src/): the value of an attribute of that name is
    replaced where it stands, a new attribute is appended. *)
Fixpoint SetAttributeString (attrs : list Attribute) (name value : string)
  : list Attribute :=
  match attrs with
  | [] => [mkAttribute name value]
  | a :: rest =>
      if decide (Name a = name) then mkAttribute name value :: rest
      else a :: SetAttributeString rest name value
  end.

(** [BaseNode.AttributeString]: the value of the first attribute of that
    name. *)
Fixpoint AttributeString (attrs : list Attribute) (name : string)
  : option string :=
  match attrs with
  | [] => None
  | a :: rest =>
      if decide (Name a = name) then Some (Value a)
      else AttributeString rest name
  end.

Inductive WalkStatus : Type := WalkStop | WalkSkipChildren | WalkContinue.

(** A walker sees the kind and the attributes of the node it is called on
    and whether the node is entered or left; it may set attributes. *)
Definition Walker : Type :=
  NodeKind → list Attribute → bool → list Attribute * WalkStatus * option error.

(** The position of a node: the child indices on the way from the root. *)
Definition position : Type := list nat.

(** One call of the walker. *)
Definition visit : Type := (position * bool)%type.

Record walked : Type := mkWalked {
  w_node : Node;              (* the node after the walk *)
  w_trace : list visit;       (* the calls of the walker, in order *)
  w_status : WalkStatus;
  w_err : option error
}.

Definition stops (status : WalkStatus) (err : option error) : bool :=
  match err, status with
  | Some _, _ => true
  | None, WalkStop => true
  | None, _ => false
  end.

(** The loop over the children of a node in [walkHelper], from the [i]-th
    child on: [walk] is the walk of one child. *)
Definition walkChildren (walk : position → Node → walked) (pos : position)
  : nat → list Node → list Node * list visit * bool * option error :=
  fix loop (i : nat) (cs : list Node) :=
    match cs with
    | [] => ([], [], false, None)
    | c :: rest =>
        let w := walk (pos ++ [i]) c in
        if stops (w_status w) (w_err w) then
          (w_node w :: rest, w_trace w, true, w_err w)
        else
          let '(rest', trr, stopped, e) := loop (S i) rest in
          (w_node w :: rest', w_trace w ++ trr, stopped, e)
    end.

(** Modelled from the spec: [ast.Walk] of goldmark (a dependency, not under
    src/): the walker is called on a node on entry, then the children are
    walked first to last unless the walker asked to skip them, then the
    walker is called on the node on exit; an error or [WalkStop] ends the
    walk. *)
Fixpoint walkHelper (walker : Walker) (pos : position) (n : Node) : walked :=
  match n with
  | mkNode k attrs cs =>
      let '(attrs1, status, err) := walker k attrs true in
      if stops status err then
        mkWalked (mkNode k attrs1 cs) [(pos, true)] status err
      else
        let '(cs', tr, stopped, errc) :=
          match status with
          | WalkSkipChildren => (cs, [], false, None)
          | _ => walkChildren (walkHelper walker) pos 0 cs
          end in
        if (stopped : bool) then
          mkWalked (mkNode k attrs1 cs') ((pos, true) :: tr) WalkStop errc
        else
          let '(attrs2, status2, err2) := walker k attrs1 false in
          mkWalked (mkNode k attrs2 cs') ((pos, true) :: tr ++ [(pos, false)])
            (if stops status2 err2 then WalkStop else WalkContinue) err2
  end.

Definition Walk (n : Node) (walker : Walker) : walked :=
  walkHelper walker [] n.

(** The positions of the children from the [i]-th on and of what is below
    them. *)
Definition positions_from (below : position → Node → list position)
    (pos : position) : nat → list Node → list position :=
  fix go (i : nat) (cs : list Node) :=
    match cs with
    | [] => []
    | c :: rest => below (pos ++ [i]) c ++ go (S i) rest
    end.

(** The positions of the nodes of a tree, a node before its children. *)
Fixpoint positions (pos : position) (n : Node) : list position :=
  match n with
  | mkNode _ _ cs => pos :: positions_from positions pos 0 cs
  end.

(** The node at a position below [n]. *)
Fixpoint node_at (p : position) (n : Node) : option Node :=
  match p with
  | [] => Some n
  | i :: p' =>
      match Children n !! i with
      | Some c => node_at p' c
      | None => None
      end
  end.

(** The positions at which the walker was called on entry. *)
Definition entered (tr : list visit) : list position :=
  (filter (fun v : visit => v.2 = true) tr).*1.

(** The positions at which the walker was called on exit. *)
Definition left (tr : list visit) : list position :=
  (filter (fun v : visit => v.2 = false) tr).*1.

End ast.

(** * The AST transformer (templates.go, [ASTTransformer.Transform]) *)

(** The function literal passed to [ast.Walk]. *)
Definition transformWalker : ast.Walker :=
  fun k attrs entering =>
    if negb entering then (attrs, ast.WalkContinue, None)
    else
      let attrs' :=
        match k with
        | ast.KindLink =>
            ast.SetAttributeString
              (ast.SetAttributeString attrs "target" "_blank")
              "rel" "noopener noreferrer"
        | ast.KindBlockquote =>
            ast.SetAttributeString attrs "class"
              "border-start border-primary border-3 ps-2"
        | _ => attrs
        end in
      (attrs', ast.WalkContinue, None).

(** [Transform] changes the document in place and discards what [ast.Walk]
    returns; the changed document is the result here. *)
Definition Transform (node : ast.Node) : ast.Node :=
  ast.w_node (ast.Walk node transformWalker).

(** The calls of the walker that [Transform] causes. *)
Definition Transform_trace (node : ast.Node) : list ast.visit :=
  ast.w_trace (ast.Walk node transformWalker).

(** * The markdown renderer (templates.go, the "Markdown" entry) *)

Module goldmark.

(** A converter as [goldmark.New] builds it. Parsing markdown text into a
    document and rendering a document as HTML belong to goldmark and are
    taken as they come: [parse] is the parser before its AST transformers
    run, [render] gives the bytes the renderer writes and the error it
    returns. *)
Record Markdown : Type := New {
  parse : string → ast.Node;
  render : string → ast.Node → string * option error;
  transformers : list (ast.Node → ast.Node)
}.

(** [Convert] parses the source, runs the AST transformers on the document
    and renders it into the writer, a [bytes.Buffer] here. *)
Definition Convert (m : Markdown) (source : string) (buf : string)
  : string * option error :=
  let doc := foldl (fun d tr => tr d) (parse m source) (transformers m) in
  let '(written, err) := render m source doc in
  (buf +:+ written, err).

End goldmark.

(** What [goldmark.New] is given in templates.go besides the options that only
    reach the parser and the renderer: the one AST transformer. *)
Definition converter (parse : string → ast.Node)
    (render : string → ast.Node → string * option error) : goldmark.Markdown :=
  goldmark.New parse render [Transform].

(** The result is a [template.HTML], a string the template engine does not
    escape. *)
Definition Markdown (parse : string → ast.Node)
    (render : string → ast.Node → string * option error)
    (source : string) : string :=
  let buf := "" in
  let '(buf, err) := goldmark.Convert (converter parse render) source buf in
  match err with
  | Some _ => "<p>" +:+ source +:+ "</p>"
  | None => buf
  end.

(** * Go values and reflection (for the "Reversed" entry) *)

Module reflect.

Inductive Kind : Type :=
  | Invalid | Bool | Int | Float64 | String | Array | Chan | Func
  | Interface | Map | Pointer | Slice | Struct.

Inductive Type_ : Type :=
  | TBool | TInt | TFloat64 | TString
  | TArray (len : nat) (elem : Type_)
  | TSlice (elem : Type_)
  | TPointer (elem : Type_)
  | TMap (key elem : Type_)
  | TInterface
  | TStruct (name : string).

Definition Type_Kind (t : Type_) : Kind :=
  match t with
  | TBool => Bool
  | TInt => Int
  | TFloat64 => Float64
  | TString => String
  | TArray _ _ => Array
  | TSlice _ => Slice
  | TPointer _ => Pointer
  | TMap _ _ => Map
  | TInterface => Interface
  | TStruct _ => Struct
  end.

(** The address of a backing array. *)
Definition loc : Type := positive.

(** A value held in an [any]. A slice is its header: the backing array, the
    offset into it and the length; an array is held by value. *)
Inductive value : Type :=
  | VNil
  | VBool (b : bool)
  | VInt (n : Z)
  | VString (s : string)
  | VArray (elem : Type_) (elems : list value)
  | VSlice (elem : Type_) (data : loc) (off len : nat)
  | VPointer (elem : Type_) (p : option loc)
  | VMap (key elem : Type_) (m : option loc)
  | VStruct (name : string) (fields : list value).

(** The backing arrays of the slices. *)
Abbreviation heap := (gmap loc (list value)).

(** [reflect.TypeOf]: the dynamic type, [None] (a nil [Type]) for the nil
    interface value. *)
Definition TypeOf (v : value) : option Type_ :=
  match v with
  | VNil => None
  | VBool _ => Some TBool
  | VInt _ => Some TInt
  | VString _ => Some TString
  | VArray elem elems => Some (TArray (length elems) elem)
  | VSlice elem _ _ _ => Some (TSlice elem)
  | VPointer elem _ => Some (TPointer elem)
  | VMap key elem _ => Some (TMap key elem)
  | VStruct name _ => Some (TStruct name)
  end.

(** [Value.Len] of an array or a slice. *)
Definition Len (v : value) : result nat :=
  match v with
  | VArray _ elems => Ok (length elems)
  | VSlice _ _ _ len => Ok len
  | _ => Panic "reflect: call of reflect.Value.Len on a value that is no sequence"
  end.

(** [Value.Index(i).Interface()] of an array or a slice. *)
Definition Index (h : heap) (v : value) (i : nat) : result value :=
  match v with
  | VArray _ elems =>
      match elems !! i with
      | Some x => Ok x
      | None => Panic "reflect: array index out of range"
      end
  | VSlice _ data off len =>
      if decide (i < len) then
        match h !! data ≫= (.!! (off + i)) with
        | Some x => Ok x
        | None => Panic "slice beyond its backing array"
        end
      else Panic "reflect: slice index out of range"
  | _ => Panic "reflect: call of reflect.Value.Index on a value that is no sequence"
  end.

(** [make([]interface{}, ln)]: a backing array of [ln] nil interface values
    at an address that is not in use. *)
Definition make (ln : nat) (h : heap) : loc * heap :=
  let data := fresh (dom h) in
  (data, <[data := replicate ln VNil]> h).

(** [s[i] = x] for the slice that covers the whole backing array [data]. *)
Definition store (h : heap) (data : loc) (i : nat) (x : value) : result heap :=
  match h !! data with
  | Some arr =>
      if decide (i < length arr) then Ok (<[data := <[i := x]> arr]> h)
      else Panic "index out of range"
  | None => Panic "no such backing array"
  end.

(** The elements of an array or of a slice, first to last. *)
Definition elements (h : heap) (v : value) : option (list value) :=
  match v with
  | VArray _ elems => Some elems
  | VSlice _ data off len =>
      arr ← h !! data;
      if decide (off + len ≤ length arr) then Some (take len (drop off arr))
      else None
  | _ => None
  end.

End reflect.

(** The body of the loop [for i := 0; i < ln; i++] of "Reversed", run for the
    values [idx] of [i]. *)
Fixpoint Reversed_loop (val : reflect.value) (ln : nat) (newVal : reflect.loc)
    (idx : list nat) (h : reflect.heap) : result reflect.heap :=
  match idx with
  | [] => Ok h
  | i :: idx' =>
      x ← reflect.Index h val i;
      h' ← reflect.store h newVal (ln - i - 1) x;
      Reversed_loop val ln newVal idx' h'
  end.

(** The "Reversed" entry of the function map. *)
Definition Reversed (h : reflect.heap) (param : reflect.value)
  : result (reflect.value * reflect.heap) :=
  match reflect.TypeOf param with
  | None => Panic "invalid memory address or nil pointer dereference"
  | Some t =>
      match reflect.Type_Kind t with
      | reflect.Slice | reflect.Array =>
          let val := param in
          ln ← reflect.Len val;
          let '(newVal, h1) := reflect.make ln h in
          h2 ← Reversed_loop val ln newVal (seq 0 ln) h1;
          Ok (reflect.VSlice reflect.TInterface newVal 0 ln, h2)
      | _ => Ok (param, h)
      end
  end.

(** * Package handles and repository clients (used by the function map) *)

Module ctrlpkg.

Record PackageInfoTemplate : Type := mkPackageInfo {
  Name : string;
  Version : string
}.

Record PackageSpec : Type := mkPackageSpec {
  PackageInfo : PackageInfoTemplate;
  Suspend : bool
}.

(** What a [Package] interface value holds when it is not nil: a pointer to a
    package or a cluster package, with the methods the function map calls.
    [IsNil] reports that the pointer is nil; the other methods may then
    panic. *)
Record object : Type := mkObject {
  IsNil : bool;
  GetSpec : result PackageSpec;
  AutoUpdatesEnabled : result bool
}.

(** The interface value; [None] is the nil interface. *)
Definition Package : Type := option object.

(** A method call on an interface value: it panics on the nil interface. *)
Definition call {A : Type} (pkg : Package) (method : object → result A)
  : result A :=
  match pkg with
  | None => Panic "invalid memory address or nil pointer dereference"
  | Some o => method o
  end.

End ctrlpkg.

Module repoclient.

Record RepoClient : Type := mkRepoClient {
  GetPackageManifestURL : string → string → string * option error
}.

Record RepoClientset : Type := mkRepoClientset {
  ForPackage : ctrlpkg.Package → RepoClient
}.

End repoclient.

(** The "PackageManifestUrl" entry; [clientset] is [t.repoClientset]. *)
Definition PackageManifestUrl (clientset : repoclient.RepoClientset)
    (pkg : ctrlpkg.Package) : result string :=
  isNil ← ctrlpkg.call pkg (fun o => Ok (ctrlpkg.IsNil o));
  if negb isNil then
    let client := repoclient.ForPackage clientset pkg in
    spec ← ctrlpkg.call pkg ctrlpkg.GetSpec;
    let '(url, err) :=
      repoclient.GetPackageManifestURL client
        (ctrlpkg.Name (ctrlpkg.PackageInfo spec))
        (ctrlpkg.Version (ctrlpkg.PackageInfo spec)) in
    match err with
    | None => Ok url
    | Some _ => Ok ""
    end
  else Ok "".

(** The "AutoUpdateEnabled" entry. [&&] does not evaluate [!pkg.IsNil()] when
    [pkg != nil] is false. *)
Definition AutoUpdateEnabled (pkg : ctrlpkg.Package) : result bool :=
  match pkg with
  | Some o =>
      if negb (ctrlpkg.IsNil o) then ctrlpkg.AutoUpdatesEnabled o
      else Ok false
  | None => Ok false
  end.

(** The "IsSuspended" entry. *)
Definition IsSuspended (pkg : ctrlpkg.Package) : result bool :=
  match pkg with
  | Some o =>
      if negb (ctrlpkg.IsNil o) then
        spec ← ctrlpkg.GetSpec o; Ok (ctrlpkg.Suspend spec)
      else Ok false
  | None => Ok false
  end.

(** The "IsRepoStatusReady" entry, on the conditions of the repository's
    status: pairs of a condition type and its status. *)
Definition IsRepoStatusReady (conditions : list (string * string)) : bool :=
  match list_find (fun c : string * string => c.1 = "Ready") conditions with
  | Some (_, cond) => bool_decide (cond.2 = "True")
  | None => false
  end.

(** * Paths (package path of the standard library) *)

Module path.

(** [path.Join] of elements that are clean already: the elements that are
    not empty, with a slash between them. *)
Fixpoint Join (elems : list string) : string :=
  match elems with
  | [] => ""
  | e :: rest =>
      if decide (e = "") then Join rest
      else match Join rest with
           | "" => e
           | r => e +:+ "/" +:+ r
           end
  end.

Fixpoint split_last (s dir elem : string) : string * string :=
  match s with
  | EmptyString => (dir, elem)
  | String c s' =>
      if decide (c = "/"%char) then
        split_last s' (dir +:+ (if decide (dir = "") then "" else "/") +:+ elem) ""
      else split_last s' dir (elem +:+ String c "")
  end.

(** [path.Base] and [path.Dir] of a relative path of a file: the last
    element, and what stands before its slash. *)
Definition Base (p : string) : string := (split_last p "" "").2.
Definition Dir (p : string) : string :=
  match (split_last p "" "").1 with
  | "" => "."
  | d => d
  end.

(** [path.Match] for patterns of plain characters and [*], which matches
    any run of characters other than the slash. *)
Fixpoint Match (pattern name : string) : bool :=
  match pattern with
  | EmptyString => bool_decide (name = "")
  | String c pattern' =>
      if decide (c = "*"%char) then
        (fix star (name : string) : bool :=
           Match pattern' name ||
           match name with
           | EmptyString => false
           | String d name' =>
               if decide (d = "/"%char) then false else star name'
           end) name
      else
        match name with
        | EmptyString => false
        | String d name' =>
            if decide (c = d) then Match pattern' name' else false
        end
  end.

End path.

(** * Templates (package html/template of the standard library) *)

(** A function of the function map: one of the closures of templates.go, or a
    function of another package, which is only named. *)
Inductive Func : Type :=
  | FuncExtern (qualified : string)
  | FuncString (f : string → string)
  | FuncAny (f : reflect.heap → reflect.value
                 → result (reflect.value * reflect.heap))
  | FuncPackageString (f : ctrlpkg.Package → result string)
  | FuncPackageBool (f : ctrlpkg.Package → result bool)
  | FuncConditionsBool (f : list (string * string) → bool).

Module template.

(** [template.FuncMap], a Go map. *)
Abbreviation FuncMap := (gmap string Func).

(** A file system: the files with their paths and contents, in the order in
    which a directory is listed. *)
Abbreviation FS := (list (string * string)).

Definition ReadFile (fsys : FS) (name : string) : option string :=
  (fun found : nat * (string * string) => found.2.2)
    <$> list_find (fun f : string * string => f.1 = name) fsys.

(** [fs.Glob]: the paths of the files the pattern matches. *)
Definition Glob (fsys : FS) (pattern : string) : list string :=
  filter (fun name => path.Match pattern name = true) fsys.*1.

(** A template with the set it belongs to: its name, the functions
    attached, and the texts parsed into the set as (template name, text),
    in the order of parsing. The text of a file is kept as it is. *)
Record Template : Type := mkTemplate {
  Name : string;
  funcs : FuncMap;
  texts : list (string * string)
}.

Definition New (name : string) : Template := mkTemplate name ∅ [].

(** [Funcs] adds the functions of the map, replacing those of the same
    name. *)
Definition Funcs (t : Template) (funcMap : FuncMap) : Template :=
  mkTemplate (Name t) (funcMap ∪ funcs t) (texts t).

(** [Clone] on a pointer; [None] is the nil pointer. *)
Definition Clone (t : option Template) : result (Template * option error) :=
  match t with
  | Some t => Ok (t, None)
  | None => Panic "invalid memory address or nil pointer dereference"
  end.

(** What parsing one text may report, given the names of the functions
    attached; the parser itself belongs to text/template/parse. *)
Definition TextParser : Type := gset string → string → option error.

(** [parseFiles]: each file is read and parsed into the set under its base
    name. *)
Fixpoint parseFiles (parser : TextParser) (fsys : FS) (t : Template)
    (filenames : list string) : Template * option error :=
  match filenames with
  | [] => (t, None)
  | filename :: rest =>
      match ReadFile fsys filename with
      | None => (t, Some (errorString ("open " +:+ filename +:+ ": file does not exist")))
      | Some s =>
          match parser (dom (funcs t)) s with
          | Some err => (t, Some err)
          | None =>
              parseFiles parser fsys
                (mkTemplate (Name t) (funcs t) (texts t ++ [(path.Base filename, s)]))
                rest
          end
      end
  end.

(** The file names of [parseFS]: those of each pattern in turn, an error
    for a pattern that matches no file. *)
Fixpoint globAll (fsys : FS) (patterns : list string) : list string + error :=
  match patterns with
  | [] => inl []
  | pattern :: rest =>
      match Glob fsys pattern with
      | [] => inr (errorString ("template: pattern matches no files: " +:+ pattern))
      | list =>
          match globAll fsys rest with
          | inl filenames => inl (list ++ filenames)
          | inr err => inr err
          end
      end
  end.

(** [t.ParseFS(fsys, patterns...)]. *)
Definition ParseFS (parser : TextParser) (t : Template) (fsys : FS)
    (patterns : list string) : Template * option error :=
  match globAll fsys patterns with
  | inr err => (t, Some err)
  | inl [] => (t, Some (errorString "template: no files named in call to ParseFiles"))
  | inl filenames => parseFiles parser fsys t filenames
  end.

(** [template.Must] panics on an error. *)
Definition Must (r : Template * option error) : result Template :=
  match r with
  | (t, None) => Ok t
  | (_, Some _) => Panic "template.Must"
  end.

End template.

(** * The registry (templates.go, [templates]) *)

(** What the registry takes from its surroundings: the markdown parser and
    renderer of goldmark, the parser of template texts, and [webFs], the file
    system the template files are read from. *)
Record Env : Type := mkEnv {
  md_parse : string → ast.Node;
  md_render : string → ast.Node → string * option error;
  tmpl_parser : template.TextParser;
  webFs : template.FS
}.

Record templates : Type := mkTemplates {
  templateFuncs : template.FuncMap;
  baseTemplate : option template.Template;
  clusterPkgsPageTemplate : option template.Template;
  pkgsPageTmpl : option template.Template;
  pkgPageTmpl : option template.Template;
  pkgDiscussionPageTmpl : option template.Template;
  supportPageTmpl : option template.Template;
  bootstrapPageTmpl : option template.Template;
  kubeconfigPageTmpl : option template.Template;
  settingsPageTmpl : option template.Template;
  repositoryPageTmpl : option template.Template;
  pkgDetailHeaderTmpl : option template.Template;
  pkgConfigInput : option template.Template;
  pkgUninstallModalTmpl : option template.Template;
  toastTmpl : option template.Template;
  datalistTmpl : option template.Template;
  pkgDiscussionBadgeTmpl : option template.Template;
  yamlModalTmpl : option template.Template;
  repoClientset : repoclient.RepoClientset
}.

(** The fields that hold a template. *)
Inductive Field : Type :=
  | F_baseTemplate | F_clusterPkgsPageTemplate | F_pkgsPageTmpl | F_pkgPageTmpl
  | F_pkgDiscussionPageTmpl | F_supportPageTmpl | F_bootstrapPageTmpl
  | F_kubeconfigPageTmpl | F_settingsPageTmpl | F_repositoryPageTmpl
  | F_pkgDetailHeaderTmpl | F_pkgConfigInput | F_pkgUninstallModalTmpl
  | F_toastTmpl | F_datalistTmpl | F_pkgDiscussionBadgeTmpl | F_yamlModalTmpl.

#[global] Instance Field_eq_dec : EqDecision Field.
Proof. solve_decision. Defined.

(** Reading a field: what a lookup of a template gets. *)
Definition get (f : Field) (t : templates) : option template.Template :=
  match f with
  | F_baseTemplate => baseTemplate t
  | F_clusterPkgsPageTemplate => clusterPkgsPageTemplate t
  | F_pkgsPageTmpl => pkgsPageTmpl t
  | F_pkgPageTmpl => pkgPageTmpl t
  | F_pkgDiscussionPageTmpl => pkgDiscussionPageTmpl t
  | F_supportPageTmpl => supportPageTmpl t
  | F_bootstrapPageTmpl => bootstrapPageTmpl t
  | F_kubeconfigPageTmpl => kubeconfigPageTmpl t
  | F_settingsPageTmpl => settingsPageTmpl t
  | F_repositoryPageTmpl => repositoryPageTmpl t
  | F_pkgDetailHeaderTmpl => pkgDetailHeaderTmpl t
  | F_pkgConfigInput => pkgConfigInput t
  | F_pkgUninstallModalTmpl => pkgUninstallModalTmpl t
  | F_toastTmpl => toastTmpl t
  | F_datalistTmpl => datalistTmpl t
  | F_pkgDiscussionBadgeTmpl => pkgDiscussionBadgeTmpl t
  | F_yamlModalTmpl => yamlModalTmpl t
  end.

(** The assignment [t.f = v]. *)
Definition set (f : Field) (v : option template.Template) (t : templates)
  : templates :=
  let upd g := if decide (f = g) then v else get g t in
  {| templateFuncs := templateFuncs t;
     baseTemplate := upd F_baseTemplate;
     clusterPkgsPageTemplate := upd F_clusterPkgsPageTemplate;
     pkgsPageTmpl := upd F_pkgsPageTmpl;
     pkgPageTmpl := upd F_pkgPageTmpl;
     pkgDiscussionPageTmpl := upd F_pkgDiscussionPageTmpl;
     supportPageTmpl := upd F_supportPageTmpl;
     bootstrapPageTmpl := upd F_bootstrapPageTmpl;
     kubeconfigPageTmpl := upd F_kubeconfigPageTmpl;
     settingsPageTmpl := upd F_settingsPageTmpl;
     repositoryPageTmpl := upd F_repositoryPageTmpl;
     pkgDetailHeaderTmpl := upd F_pkgDetailHeaderTmpl;
     pkgConfigInput := upd F_pkgConfigInput;
     pkgUninstallModalTmpl := upd F_pkgUninstallModalTmpl;
     toastTmpl := upd F_toastTmpl;
     datalistTmpl := upd F_datalistTmpl;
     pkgDiscussionBadgeTmpl := upd F_pkgDiscussionBadgeTmpl;
     yamlModalTmpl := upd F_yamlModalTmpl;
     repoClientset := repoClientset t |}.

(** The assignment [t.templateFuncs = m]. *)
Definition set_templateFuncs (m : template.FuncMap) (t : templates) : templates :=
  {| templateFuncs := m;
     baseTemplate := baseTemplate t;
     clusterPkgsPageTemplate := clusterPkgsPageTemplate t;
     pkgsPageTmpl := pkgsPageTmpl t;
     pkgPageTmpl := pkgPageTmpl t;
     pkgDiscussionPageTmpl := pkgDiscussionPageTmpl t;
     supportPageTmpl := supportPageTmpl t;
     bootstrapPageTmpl := bootstrapPageTmpl t;
     kubeconfigPageTmpl := kubeconfigPageTmpl t;
     settingsPageTmpl := settingsPageTmpl t;
     repositoryPageTmpl := repositoryPageTmpl t;
     pkgDetailHeaderTmpl := pkgDetailHeaderTmpl t;
     pkgConfigInput := pkgConfigInput t;
     pkgUninstallModalTmpl := pkgUninstallModalTmpl t;
     toastTmpl := toastTmpl t;
     datalistTmpl := datalistTmpl t;
     pkgDiscussionBadgeTmpl := pkgDiscussionBadgeTmpl t;
     yamlModalTmpl := yamlModalTmpl t;
     repoClientset := repoClientset t |}.

Definition templatesBaseDir : string := "internal/web".
Definition templatesDir : string := "templates".
Definition componentsDir : string := path.Join [templatesDir; "components"].
Definition pagesDir : string := path.Join [templatesDir; "pages"].

(** The function map literal of [parseTemplates]. The closure of
    "PackageManifestUrl" reads [t.repoClientset], which [parseTemplates] does
    not assign. *)
Definition funcMap (env : Env) (t : templates) : template.FuncMap :=
  list_to_map [
    ("ForClPkgOverviewBtn", FuncExtern "pkg_overview_btn.ForClPkgOverviewBtn");
    ("ForPkgDetailBtns", FuncExtern "pkg_detail_btns.ForPkgDetailBtns");
    ("ForPkgUpdateAlert", FuncExtern "pkg_update_alert.ForPkgUpdateAlert");
    ("PackageManifestUrl", FuncPackageString (PackageManifestUrl (repoClientset t)));
    ("ForToast", FuncExtern "toast.ForToast");
    ("ForPkgConfigInput", FuncExtern "pkg_config_input.ForPkgConfigInput");
    ("ForDatalist", FuncExtern "datalist.ForDatalist");
    ("IsUpgradable", FuncExtern "semver.IsUpgradable");
    ("Markdown", FuncString (Markdown (md_parse env) (md_render env)));
    ("Reversed", FuncAny Reversed);
    ("UrlEscape", FuncExtern "template.URLQueryEscaper");
    ("IsRepoStatusReady", FuncConditionsBool IsRepoStatusReady);
    ("PackageDetailRefreshId", FuncExtern "webutil.PackageRefreshDetailId");
    ("PackageDetailHeaderRefreshId", FuncExtern "webutil.PackageRefreshDetailHeaderId");
    ("PackageOverviewRefreshId", FuncExtern "webutil.PackageOverviewRefreshId");
    ("ClusterPackageOverviewRefreshId", FuncExtern "webutil.ClusterPackageOverviewRefreshId");
    ("ComponentName", FuncExtern "depUtil.ComponentName");
    ("AutoUpdateEnabled", FuncPackageBool AutoUpdateEnabled);
    ("IsSuspended", FuncPackageBool IsSuspended)
  ].

(** [t.pageTmpl(fileName)]. *)
Definition pageTmpl (env : Env) (t : templates) (fileName : string)
  : result template.Template :=
  clone ← template.Clone (baseTemplate t);
  base ← template.Must clone;
  template.Must
    (template.ParseFS (tmpl_parser env) base (webFs env)
       [path.Join [pagesDir; fileName];
        path.Join [componentsDir; "*.html"]]).

(** [t.componentTmpl(id, requiredTemplates...)]. *)
Definition componentTmpl (env : Env) (t : templates) (id : string)
    (requiredTemplates : list string) : result template.Template :=
  let tpls :=
    foldl (fun tpls requiredTmpl =>
             tpls ++ [path.Join [componentsDir; requiredTmpl +:+ ".html"]])
      [] requiredTemplates in
  let tpls := tpls ++ [path.Join [componentsDir; id +:+ ".html"]] in
  template.Must
    (template.ParseFS (tmpl_parser env)
       (template.Funcs (template.New id) (templateFuncs t)) (webFs env) tpls).

(** A statement [t.f = e] of [parseTemplates]. *)
Definition assign (f : Field) (e : templates → result template.Template)
    (t : templates) : result templates :=
  v ← e t; Ok (set f (Some v) t).

(** The assignments of templates in [parseTemplates], in program order: the
    field assigned and the expression, which reads the registry. *)
Definition assignments (env : Env)
  : list (Field * (templates → result template.Template)) :=
  [ (F_baseTemplate, fun t =>
      template.Must
        (template.ParseFS (tmpl_parser env)
           (template.Funcs (template.New "base.html") (templateFuncs t))
           (webFs env) [path.Join [templatesDir; "layout"; "base.html"]]));
    (F_clusterPkgsPageTemplate, fun t => pageTmpl env t "clusterpackages.html");
    (F_pkgsPageTmpl, fun t => pageTmpl env t "packages.html");
    (F_pkgPageTmpl, fun t => pageTmpl env t "package.html");
    (F_pkgDiscussionPageTmpl, fun t => pageTmpl env t "discussion.html");
    (F_supportPageTmpl, fun t => pageTmpl env t "support.html");
    (F_bootstrapPageTmpl, fun t => pageTmpl env t "bootstrap.html");
    (F_kubeconfigPageTmpl, fun t => pageTmpl env t "kubeconfig.html");
    (F_settingsPageTmpl, fun t => pageTmpl env t "settings.html");
    (F_repositoryPageTmpl, fun t => pageTmpl env t "repository.html");
    (F_pkgDetailHeaderTmpl, fun t =>
      componentTmpl env t "pkg-detail-header" ["pkg-detail-btns"]);
    (F_pkgConfigInput, fun t =>
      componentTmpl env t "pkg-config-input" ["datalist"]);
    (F_pkgUninstallModalTmpl, fun t => componentTmpl env t "pkg-uninstall-modal" []);
    (F_toastTmpl, fun t => componentTmpl env t "toast" []);
    (F_datalistTmpl, fun t => componentTmpl env t "datalist" []);
    (F_pkgDiscussionBadgeTmpl, fun t => componentTmpl env t "discussion-badge" []);
    (F_yamlModalTmpl, fun t => componentTmpl env t "yaml-modal" []) ].

(** The statements of [parseTemplates], in program order: the assignment of
    the function map, then those of the templates. *)
Definition parseTemplates_stmts (env : Env) : list (templates → result templates) :=
  (fun t => Ok (set_templateFuncs (funcMap env t) t))
  :: map (fun a => assign a.1 a.2) (assignments env).

(** Running statements one after the other; a panic ends the run. *)
Fixpoint run (stmts : list (templates → result templates)) (t : templates)
  : result templates :=
  match stmts with
  | [] => Ok t
  | stmt :: rest => t' ← stmt t; run rest t'
  end.

Definition parseTemplates (env : Env) (t : templates) : result templates :=
  run (parseTemplates_stmts env) t.

(** What another goroutine may find in [t] while [parseTemplates] runs: the
    registry after the first [k] statements. *)
Definition in_progress (env : Env) (k : nat) (t : templates) : result templates :=
  run (take k (parseTemplates_stmts env)) t.

(** * The watcher (templates.go, [watchTemplates]) *)

Module multierr.

Definition errors_of (err : error) : list error :=
  match err with
  | multiError errs => errs
  | _ => [err]
  end.

(** [multierr.Combine]: nil when no error is given, the error when one is
    given, else the combined error of all of them in order. *)
Definition Combine (errors : list (option error)) : option error :=
  match omap id errors with
  | [] => None
  | [err] => Some err
  | errs => Some (multiError (errs ≫= errors_of))
  end.

End multierr.

Module fsnotify.

Inductive Op : Type := Create | Write | Remove | Rename | Chmod.

Record Event : Type := mkEvent { Name : string; Op_ : Op }.

(** A watcher with the directories registered with it. *)
Record Watcher : Type := mkWatcher { watches : list string }.

(** What the operating system answers: the error of creating a watcher and
    the error of registering a directory, [None] for none. *)
Record OS : Type := mkOS {
  newWatcher_err : option error;
  add_err : string → option error
}.

(** [fsnotify.NewWatcher]: a nil watcher and the error, or a watcher. *)
Definition NewWatcher (os : OS) : option Watcher * option error :=
  match newWatcher_err os with
  | Some err => (None, Some err)
  | None => (Some (mkWatcher []), None)
  end.

(** [watcher.Add(name)], with the watcher after the call; it dereferences
    the watcher. *)
Definition Add (os : OS) (watcher : option Watcher) (name : string)
  : result (option Watcher * option error) :=
  match watcher with
  | None => Panic "invalid memory address or nil pointer dereference"
  | Some w =>
      match add_err os name with
      | Some err => Ok (Some w, Some err)
      | None => Ok (Some (mkWatcher (watches w ++ [name])), None)
      end
  end.

(** A change of the file system: the event reported for it and the files
    after it. *)
Abbreviation change := (Event * list (string * string))%type.

(** What arrives on [watcher.Events]: the changes of a registered directory
    itself (it is removed, renamed, or its mode is changed) and those of what
    stands directly in it; a watch does not reach into the directories
    below. *)
Definition Events (watcher : option Watcher)
    (changes : list change) : list change :=
  match watcher with
  | None => []
  | Some w =>
      filter (fun c : change =>
                Name c.1 ∈ watches w ∨ path.Dir (Name c.1) ∈ watches w)
        changes
  end.

End fsnotify.

Definition with_webFs (env : Env) (fsys : template.FS) : Env :=
  {| md_parse := md_parse env; md_render := md_render env;
     tmpl_parser := tmpl_parser env; webFs := fsys |}.

(** The goroutine of [watchTemplates]: [for range watcher.Events] with its
    body, on the events that arrive. The result lists the events for which
    [t.parseTemplates()] was called, one entry a call; a panic of
    [parseTemplates] is not recovered and ends the process. *)
Fixpoint eventLoop (env : Env) (events : list fsnotify.change) (t : templates)
  : list fsnotify.Event * result templates :=
  match events with
  | [] => ([], Ok t)
  | (ev, fsys) :: rest =>
      match parseTemplates (with_webFs env fsys) t with
      | Ok t' =>
          let '(calls, r) := eventLoop env rest t' in (ev :: calls, r)
      | Panic msg => ([ev], Panic msg)
      end
  end.

(** What [watchTemplates] leaves behind: the error it returns, the watcher,
    and whether the goroutine was started. *)
Record watching : Type := mkWatching {
  returned : option error;
  watcher : option fsnotify.Watcher;
  started : bool
}.

Definition watchTemplates (os : fsnotify.OS) : result watching :=
  let '(watcher, err) := fsnotify.NewWatcher os in
  '(watcher, err1) ← fsnotify.Add os watcher (path.Join [templatesBaseDir; componentsDir]);
  '(watcher, err2) ← fsnotify.Add os watcher (path.Join [templatesBaseDir; templatesDir; "layout"]);
  '(watcher, err3) ← fsnotify.Add os watcher (path.Join [templatesBaseDir; pagesDir]);
  let err := multierr.Combine [err; err1; err2; err3] in
  Ok (mkWatching err watcher (if err is None then true else false)).

(** [watchTemplates] followed by changes of the file system: the calls of
    [parseTemplates] they lead to. *)
Definition recompilations (os : fsnotify.OS) (env : Env) (t : templates)
    (changes : list fsnotify.change) : result (list fsnotify.Event) :=
  w ← watchTemplates os;
  if started w then
    Ok (eventLoop env (fsnotify.Events (watcher w) changes) t).1
  else Ok [].

(** * Definitions used to state the properties *)

(** The attributes of a node of kind [k] after the walker entered it. *)
Definition entry_attrs (k : ast.NodeKind) (attrs : list ast.Attribute)
  : list ast.Attribute :=
  (transformWalker k attrs true).1.1.

(** The tree with every node entered once. *)
Fixpoint entered_once (n : ast.Node) : ast.Node :=
  match n with
  | ast.mkNode k attrs cs => ast.mkNode k (entry_attrs k attrs) (map entered_once cs)
  end.

(** What the walk of [Transform] leaves at a node [n] in terms of the node
    [n'] found at its position afterwards. *)
Definition transformed_node (n n' : ast.Node) : Prop :=
  ast.Kind n' = ast.Kind n ∧
  length (ast.Children n') = length (ast.Children n) ∧
  match ast.Kind n with
  | ast.KindLink =>
      ast.AttributeString (ast.Attributes n') "target" = Some "_blank" ∧
      ast.AttributeString (ast.Attributes n') "rel" = Some "noopener noreferrer" ∧
      ∀ name, name ≠ "target" → name ≠ "rel" →
        ast.AttributeString (ast.Attributes n') name
        = ast.AttributeString (ast.Attributes n) name
  | ast.KindBlockquote =>
      ast.AttributeString (ast.Attributes n') "class"
      = Some "border-start border-primary border-3 ps-2" ∧
      ∀ name, name ≠ "class" →
        ast.AttributeString (ast.Attributes n') name
        = ast.AttributeString (ast.Attributes n) name
  | _ => ast.Attributes n' = ast.Attributes n
  end.

(** The positions listed for [c] from [pos] on are those at which [c] has a
    node. *)
Definition positions_spec (c : ast.Node) : Prop :=
  ∀ pos p, p ∈ ast.positions pos c ↔
    ∃ q, p = pos ++ q ∧ is_Some (ast.node_at q c).

(** ** Sample inputs *)

(** A document with a link and an automatic link in a paragraph and a
    paragraph in a blockquote. *)
Definition sample_doc : ast.Node :=
  ast.mkNode ast.KindDocument []
    [ ast.mkNode ast.KindParagraph []
        [ ast.mkNode ast.KindLink [ast.mkAttribute "title" "home"]
            [ast.mkNode ast.KindText [] []];
          ast.mkNode ast.KindAutoLink [] [] ];
      ast.mkNode ast.KindBlockquote []
        [ ast.mkNode ast.KindParagraph [] [ast.mkNode ast.KindText [] []] ] ].

Definition sample_parse (source : string) : ast.Node := sample_doc.

(** A renderer that writes the class of the last child of the document. *)
Definition sample_render (source : string) (doc : ast.Node)
  : string * option error :=
  (match last (ast.Children doc) with
   | Some c => default "" (ast.AttributeString (ast.Attributes c) "class")
   | None => ""
   end, None).

(** A renderer whose writer fails after two bytes. *)
Definition failing_render (source : string) (doc : ast.Node)
  : string * option error :=
  ("<p", Some (errorString "short write")).

(** Whether a value is of kind slice or array; the nil interface value has no
    type and so no kind. *)
Definition is_sequence (v : reflect.value) : bool :=
  match reflect.TypeOf v with
  | Some t =>
      match reflect.Type_Kind t with
      | reflect.Slice | reflect.Array => true
      | _ => false
      end
  | None => false
  end.

(** A heap with one backing array of four integers, and the slice of its
    second and third element. *)
Definition sample_heap : reflect.heap :=
  {[ 1%positive := [reflect.VInt 10; reflect.VInt 20; reflect.VInt 30; reflect.VInt 40] ]}.

Definition sample_slice : reflect.value :=
  reflect.VSlice reflect.TInt 1%positive 1 2.

Definition sample_array : reflect.value :=
  reflect.VArray reflect.TString
    [reflect.VString "a"; reflect.VString "b"; reflect.VString "c"].

(** The directories [watchTemplates] registers, in the order of the calls. *)
Definition watchSet : list string :=
  [ path.Join [templatesBaseDir; componentsDir];
    path.Join [templatesBaseDir; templatesDir; "layout"];
    path.Join [templatesBaseDir; pagesDir] ].

(** A file system compiles when [parseTemplates] returns on it. *)
Definition compiles (env : Env) (fsys : template.FS) : Prop :=
  ∀ t, ∃ t', parseTemplates (with_webFs env fsys) t = Ok t'.

(** The template files of the repository, with short texts. *)
Definition sample_fs : template.FS :=
  [ ("templates/components/datalist.html", "<datalist></datalist>");
    ("templates/components/discussion-badge.html", "<span></span>");
    ("templates/components/pkg-config-input.html", "<input>");
    ("templates/components/pkg-detail-btns.html", "<button></button>");
    ("templates/components/pkg-detail-header.html", "<header></header>");
    ("templates/components/pkg-uninstall-modal.html", "<dialog></dialog>");
    ("templates/components/toast.html", "<div></div>");
    ("templates/components/yaml-modal.html", "<pre></pre>");
    ("templates/layout/base.html", "<html></html>");
    ("templates/pages/bootstrap.html", "bootstrap");
    ("templates/pages/clusterpackages.html", "clusterpackages");
    ("templates/pages/discussion.html", "discussion");
    ("templates/pages/kubeconfig.html", "kubeconfig");
    ("templates/pages/package.html", "package");
    ("templates/pages/packages.html", "packages");
    ("templates/pages/repository.html", "repository");
    ("templates/pages/settings.html", "settings");
    ("templates/pages/support.html", "support") ].

(** The same files after an edit of the base layout. *)
Definition edited_fs : template.FS :=
  <[8 := ("templates/layout/base.html", "<html lang=en></html>")]> sample_fs.

Definition sample_parser : template.TextParser := fun _ _ => None.

Definition sample_env : Env :=
  mkEnv sample_parse sample_render sample_parser sample_fs.

Definition sample_clientset : repoclient.RepoClientset :=
  repoclient.mkRepoClientset (fun _ =>
    repoclient.mkRepoClient (fun name version =>
      ("https://packages.dl.glasskube.dev/" +:+ name +:+ "/" +:+ version, None))).

(** The registry before the first [parseTemplates]: no template yet. *)
Definition new_templates : templates :=
  {| templateFuncs := ∅;
     baseTemplate := None; clusterPkgsPageTemplate := None;
     pkgsPageTmpl := None; pkgPageTmpl := None;
     pkgDiscussionPageTmpl := None; supportPageTmpl := None;
     bootstrapPageTmpl := None; kubeconfigPageTmpl := None;
     settingsPageTmpl := None; repositoryPageTmpl := None;
     pkgDetailHeaderTmpl := None; pkgConfigInput := None;
     pkgUninstallModalTmpl := None; toastTmpl := None;
     datalistTmpl := None; pkgDiscussionBadgeTmpl := None;
     yamlModalTmpl := None;
     repoClientset := sample_clientset |}.

(** An operating system on which the pages directory cannot be registered. *)
Definition pages_fail_os : fsnotify.OS :=
  fsnotify.mkOS None (fun name =>
    if decide (name = "internal/web/templates/pages")
    then Some (errorString "no space left on device") else None).

(** An operating system on which every registration succeeds. *)
Definition ok_os : fsnotify.OS := fsnotify.mkOS None (fun _ => None).

Definition sample_changes : list fsnotify.change :=
  [ (fsnotify.mkEvent "internal/web/templates/components/toast.html" fsnotify.Write,
     sample_fs);
    (fsnotify.mkEvent "internal/web/templates/layout/base.html" fsnotify.Chmod,
     edited_fs);
    (fsnotify.mkEvent "internal/web/templates/pages/old.html" fsnotify.Remove,
     edited_fs) ].

(** Whether a call returned. *)
Definition is_ok {A : Type} (r : result A) : bool :=
  match r with
  | Ok _ => true
  | Panic _ => false
  end.

(** ** The composition of the templates *)

(** What parsing the files [names] adds to a set: for each file its base
    name and its text. *)
Definition file_texts (fsys : template.FS) (names : list string)
  : list (string * string) :=
  names ≫= (fun name =>
    match template.ReadFile fsys name with
    | Some s => [(path.Base name, s)]
    | None => []
    end).

Definition layout_file : string := path.Join [templatesDir; "layout"; "base.html"].
Definition page_file (fileName : string) : string := path.Join [pagesDir; fileName].
Definition component_file (id : string) : string :=
  path.Join [componentsDir; id +:+ ".html"].
Definition all_components : string := path.Join [componentsDir; "*.html"].

(** The pages: the field of the registry and the file. *)
Definition pages : list (Field * string) :=
  [ (F_clusterPkgsPageTemplate, "clusterpackages.html");
    (F_pkgsPageTmpl, "packages.html");
    (F_pkgPageTmpl, "package.html");
    (F_pkgDiscussionPageTmpl, "discussion.html");
    (F_supportPageTmpl, "support.html");
    (F_bootstrapPageTmpl, "bootstrap.html");
    (F_kubeconfigPageTmpl, "kubeconfig.html");
    (F_settingsPageTmpl, "settings.html");
    (F_repositoryPageTmpl, "repository.html") ].

(** The components: the field of the registry, the component and the
    components listed with it. *)
Definition components : list (Field * string * list string) :=
  [ (F_pkgDetailHeaderTmpl, "pkg-detail-header", ["pkg-detail-btns"]);
    (F_pkgConfigInput, "pkg-config-input", ["datalist"]);
    (F_pkgUninstallModalTmpl, "pkg-uninstall-modal", []);
    (F_toastTmpl, "toast", []);
    (F_datalistTmpl, "datalist", []);
    (F_pkgDiscussionBadgeTmpl, "discussion-badge", []);
    (F_yamlModalTmpl, "yaml-modal", []) ].

(** The base layout: named "base.html", with the function map attached, and
    the layout file parsed. *)
Definition is_base (env : Env) (funcMap : template.FuncMap)
    (base : template.Template) : Prop :=
  template.Name base = "base.html" ∧
  template.funcs base = funcMap ∧
  template.texts base
  = file_texts (webFs env) (template.Glob (webFs env) layout_file).

(** A page: what the base layout has, then the file of the page, then every
    file the pattern of the components matches. *)
Definition is_page (env : Env) (base : template.Template) (fileName : string)
    (p : template.Template) : Prop :=
  template.Name p = template.Name base ∧
  template.funcs p = template.funcs base ∧
  template.texts p
  = template.texts base
    ++ file_texts (webFs env)
         (template.Glob (webFs env) (page_file fileName)
          ++ template.Glob (webFs env) all_components).

(** A component on its own: named by its id, with the function map attached,
    and only the files of the components listed and its own file parsed. *)
Definition is_component (env : Env) (funcMap : template.FuncMap) (id : string)
    (required : list string) (c : template.Template) : Prop :=
  template.Name c = id ∧
  template.funcs c = funcMap ∧
  template.texts c
  = file_texts (webFs env)
      ((required ++ [id]) ≫= (fun r => template.Glob (webFs env) (component_file r))).

(** ** A lookup while [parseTemplates] runs *)

(** The fields in the order in which [parseTemplates] assigns them. *)
Definition fields_in_order : list Field :=
  [ F_baseTemplate; F_clusterPkgsPageTemplate; F_pkgsPageTmpl; F_pkgPageTmpl;
    F_pkgDiscussionPageTmpl; F_supportPageTmpl; F_bootstrapPageTmpl;
    F_kubeconfigPageTmpl; F_settingsPageTmpl; F_repositoryPageTmpl;
    F_pkgDetailHeaderTmpl; F_pkgConfigInput; F_pkgUninstallModalTmpl;
    F_toastTmpl; F_datalistTmpl; F_pkgDiscussionBadgeTmpl; F_yamlModalTmpl ].

(** The fields assigned by the first [k] statements of [parseTemplates], the
    first of which assigns the function map. *)
Definition assigned (k : nat) : list Field := take (k - 1) fields_in_order.

(** The texts parsed into the template a lookup of [f] gets. *)
Definition texts_of (t : templates) (f : Field) : option (list (string * string)) :=
  template.texts <$> get f t.

Definition edited_env : Env := with_webFs sample_env edited_fs.

(** ** More about the AST transformer *)

(** [P] holds of every node of the document. *)
Definition every_node (P : ast.Node → Prop) (doc : ast.Node) : Prop :=
  ∀ p n, ast.node_at p doc = Some n → P n.

(** No two attributes of the node have the same name. *)
Definition unique_attribute_names (n : ast.Node) : Prop :=
  NoDup (ast.Name <$> ast.Attributes n).

(** ** More about the helpers of the function map *)

(** A handle over a nil pointer: it reports to be nil and its other methods
    panic. *)
Definition nil_pointer_object : ctrlpkg.object :=
  ctrlpkg.mkObject true
    (Panic "invalid memory address or nil pointer dereference")
    (Panic "invalid memory address or nil pointer dereference").

(** A package with automatic updates, not suspended. *)
Definition sample_object : ctrlpkg.object :=
  ctrlpkg.mkObject false
    (Ok (ctrlpkg.mkPackageSpec (ctrlpkg.mkPackageInfo "cert-manager" "v1.14.2") false))
    (Ok true).

(** A clientset whose lookups fail. *)
Definition failing_clientset : repoclient.RepoClientset :=
  repoclient.mkRepoClientset (fun _ =>
    repoclient.mkRepoClient (fun name version =>
      ("", Some (errorString "no repository")))).

(** ** More about [parseTemplates] *)

(** Two registries agree on the function map, on the clientset and on the
    fields [A]. *)
Definition agree (A : list Field) (s s' : templates) : Prop :=
  templateFuncs s = templateFuncs s' ∧
  repoClientset s = repoClientset s' ∧
  ∀ f, f ∈ A → get f s = get f s'.

(** Each expression of the assignments [l] reads of the registry only the
    function map, the clientset and fields assigned before it, [A] being
    those assigned before [l]. *)
Fixpoint reads_assigned (A : list Field)
    (l : list (Field * (templates → result template.Template))) : Prop :=
  match l with
  | [] => True
  | a :: l' =>
      (∀ s s', agree A s s' → a.2 s = a.2 s') ∧ reads_assigned (a.1 :: A) l'
  end.

(** Two runs end alike: with registries that agree on [A], or with the same
    panic. *)
Definition end_alike (A : list Field) (r r' : result templates) : Prop :=
  match r, r' with
  | Ok s, Ok s' => agree A s s'
  | Panic msg, Panic msg' => msg = msg'
  | _, _ => False
  end.

(** A registry that holds templates of an earlier compilation, with the
    clientset of [new_templates]. *)
Definition stale_templates : templates :=
  set F_toastTmpl (Some (template.New "stale"))
    (set F_baseTemplate (Some (template.New "old-base")) new_templates).

(** Whether a pattern has a star. *)
Fixpoint has_star (pattern : string) : bool :=
  match pattern with
  | EmptyString => false
  | String c pattern' =>
      if decide (c = "*"%char) then true else has_star pattern'
  end.

(** The files [parseTemplates] names: the layout, the pages, and the
    components compiled on their own or listed with one. *)
Definition needed_files : list string :=
  [ layout_file;
    page_file "clusterpackages.html"; page_file "packages.html";
    page_file "package.html"; page_file "discussion.html";
    page_file "support.html"; page_file "bootstrap.html";
    page_file "kubeconfig.html"; page_file "settings.html";
    page_file "repository.html";
    component_file "pkg-detail-btns"; component_file "pkg-detail-header";
    component_file "datalist"; component_file "pkg-config-input";
    component_file "pkg-uninstall-modal"; component_file "toast";
    component_file "discussion-badge"; component_file "yaml-modal" ].

(** The sample files without the toast component. *)
Definition no_toast_fs : template.FS := delete 6 sample_fs.

(** ** More about the watcher *)

(** An operating system on which no watcher can be created. *)
Definition no_watcher_os : fsnotify.OS :=
  fsnotify.mkOS (Some (errorString "too many open files")) (fun _ => None).



(** * The AST transformer: proofs *)

Section Transform.

Import ast.

Lemma Node_ind' (P : Node → Prop) :
  (∀ k attrs cs, Forall P cs → P (mkNode k attrs cs)) → ∀ n, P n.
Proof.
  intros step. fix IH 1. intros [k attrs cs]. apply step.
  induction cs as [|c cs IHcs]; constructor; [apply IH | apply IHcs].
Qed.

Lemma AttributeString_set_eq attrs name value :
  AttributeString (SetAttributeString attrs name value) name = Some value.
Proof.
  induction attrs as [|a attrs IH]; simpl.
  - by rewrite decide_True.
  - destruct (decide (Name a = name)) as [Heq|Hne]; simpl.
    + by rewrite decide_True.
    + by rewrite decide_False.
Qed.

Lemma AttributeString_set_ne attrs name value name' :
  name' ≠ name →
  AttributeString (SetAttributeString attrs name value) name'
  = AttributeString attrs name'.
Proof.
  intros Hne. induction attrs as [|a attrs IH]; simpl.
  - by rewrite decide_False.
  - destruct (decide (Name a = name)) as [Heq|Hne']; simpl.
    + rewrite decide_False by done. rewrite decide_False; [done|congruence].
    + by rewrite IH.
Qed.

Lemma entered_app tr1 tr2 : entered (tr1 ++ tr2) = entered tr1 ++ entered tr2.
Proof. unfold entered. by rewrite filter_app, fmap_app. Qed.

(** The walk of the children under the walker of [Transform]. *)
Lemma walkChildren_transform pos cs :
  Forall (fun c => ∀ pos,
    let w := walkHelper transformWalker pos c in
    w_node w = entered_once c ∧ w_status w = WalkContinue ∧ w_err w = None ∧
    entered (w_trace w) = positions pos c) cs →
  ∀ i, ∃ tr,
    walkChildren (walkHelper transformWalker) pos i cs
    = (map entered_once cs, tr, false, None) ∧
    entered tr = positions_from positions pos i cs.
Proof.
  induction 1 as [|c cs Hc _ IH]; intros i; simpl.
  - by exists [].
  - destruct (Hc (pos ++ [i])) as (Hn & Hs & He & Ht).
    rewrite Hs, He. simpl.
    destruct (IH (S i)) as (tr & -> & Htr).
    eexists. split; [by rewrite Hn|].
    by rewrite entered_app, Ht, Htr.
Qed.

Lemma walkHelper_eq walker pos k attrs cs :
  walkHelper walker pos (mkNode k attrs cs)
  = let '(attrs1, status, err) := walker k attrs true in
    if stops status err then
      mkWalked (mkNode k attrs1 cs) [(pos, true)] status err
    else
      let '(cs', tr, stopped, errc) :=
        match status with
        | WalkSkipChildren => (cs, [], false, None)
        | _ => walkChildren (walkHelper walker) pos 0 cs
        end in
      if (stopped : bool) then
        mkWalked (mkNode k attrs1 cs') ((pos, true) :: tr) WalkStop errc
      else
        let '(attrs2, status2, err2) := walker k attrs1 false in
        mkWalked (mkNode k attrs2 cs') ((pos, true) :: tr ++ [(pos, false)])
          (if stops status2 err2 then WalkStop else WalkContinue) err2.
Proof. reflexivity. Qed.

Lemma transformWalker_enter k attrs :
  transformWalker k attrs true = (entry_attrs k attrs, WalkContinue, None).
Proof. reflexivity. Qed.

Lemma transformWalker_leave k attrs :
  transformWalker k attrs false = (attrs, WalkContinue, None).
Proof. reflexivity. Qed.

(** The walk of [Transform] never stops early; it leaves every node as it
    is after one entry, and the walker enters the nodes in the order of
    [positions]. *)
Lemma walkHelper_transform n : ∀ pos,
  let w := walkHelper transformWalker pos n in
  w_node w = entered_once n ∧ w_status w = WalkContinue ∧ w_err w = None ∧
  entered (w_trace w) = positions pos n.
Proof.
  induction n as [k attrs cs IH] using Node_ind'. intros pos.
  destruct (walkChildren_transform pos cs IH 0) as (tr & Hcs & Htr).
  cbv zeta. rewrite walkHelper_eq, transformWalker_enter.
  cbn [stops]. rewrite Hcs, transformWalker_leave. cbn [stops].
  cbn [w_node w_status w_err w_trace entered_once positions].
  repeat split.
  change ((pos, true) :: tr ++ [(pos, false)])
    with ([(pos, true)] ++ tr ++ [(pos, false)]).
  rewrite !entered_app, Htr. unfold entered. simpl.
  by rewrite app_nil_r.
Qed.

Lemma Transform_entered_once doc : Transform doc = entered_once doc.
Proof. unfold Transform, Walk. apply walkHelper_transform. Qed.

Lemma Transform_trace_entered doc :
  entered (Transform_trace doc) = positions [] doc.
Proof. unfold Transform_trace, Walk. apply walkHelper_transform. Qed.

End Transform.

Section Positions.

Import ast.

Lemma elem_of_positions_from pos cs :
  Forall positions_spec cs →
  ∀ i p, p ∈ positions_from positions pos i cs ↔
    ∃ j c q, cs !! j = Some c ∧ p = pos ++ (i + j) :: q ∧ is_Some (node_at q c).
Proof.
  induction 1 as [|c cs Hc _ IH]; intros i p; simpl.
  - rewrite elem_of_nil. split; [done|]. by intros (j & c & q & ? & _).
  - rewrite elem_of_app, (Hc (pos ++ [i]) p), (IH (S i) p). split.
    + intros [(q & -> & Hq)|(j & c' & q & Hj & -> & Hq)].
      * exists 0, c, q. rewrite Nat.add_0_r, <- app_assoc. done.
      * exists (S j), c', q. rewrite Nat.add_succ_r. done.
    + intros ([|j] & c' & q & Hj & -> & Hq); simpl in Hj.
      * left. exists q. rewrite Nat.add_0_r, <- app_assoc.
        by simplify_eq.
      * right. exists j, c', q. by rewrite Nat.add_succ_r.
Qed.

(** The positions listed for a tree are those at which it has a node. *)
Lemma elem_of_positions n : positions_spec n.
Proof.
  induction n as [k attrs cs IH] using Node_ind'. intros pos p. simpl.
  rewrite elem_of_cons, (elem_of_positions_from pos cs IH). split.
  - intros [->|(j & c & q & Hj & -> & Hq)].
    + exists []. by rewrite app_nil_r.
    + exists (j :: q). simpl. by rewrite Hj.
  - intros ([|j q] & -> & Hq).
    + left. by rewrite app_nil_r.
    + right. simpl in Hq. destruct (cs !! j) as [c|] eqn:Hj.
      * by exists j, c, q.
      * by destruct Hq.
Qed.

Lemma NoDup_positions_from pos cs :
  Forall (fun c => ∀ pos, NoDup (positions pos c)) cs →
  ∀ i, NoDup (positions_from positions pos i cs).
Proof.
  induction 1 as [|c cs Hc _ IH]; intros i; simpl; [constructor|].
  apply NoDup_app. split_and!; [apply Hc| |apply IH].
  intros p Hp Hp'.
  apply elem_of_positions in Hp as (q & -> & _).
  apply elem_of_positions_from in Hp' as (j & c' & q' & _ & Heq & _).
  - rewrite <- app_assoc in Heq. apply app_inv_head in Heq.
    simpl in Heq. injection Heq as Heq _. lia.
  - apply Forall_forall. intros. apply elem_of_positions.
Qed.

(** No position is listed twice. *)
Lemma NoDup_positions n : ∀ pos, NoDup (positions pos n).
Proof.
  induction n as [k attrs cs IH] using Node_ind'. intros pos. simpl.
  apply NoDup_cons. split; [|by apply NoDup_positions_from].
  intros Hin. apply elem_of_positions_from in Hin as (j & c & q & _ & Heq & _).
  - apply (f_equal length) in Heq. rewrite length_app in Heq. simpl in Heq. lia.
  - apply Forall_forall. intros. apply elem_of_positions.
Qed.

Lemma node_at_entered_once p : ∀ n,
  node_at p (entered_once n) = entered_once <$> node_at p n.
Proof.
  induction p as [|i p IH]; intros [k attrs cs]; simpl; [done|].
  rewrite list_lookup_fmap. destruct (cs !! i) as [c|]; simpl; [apply IH|done].
Qed.

Lemma entered_once_transformed n : transformed_node n (entered_once n).
Proof.
  destruct n as [k attrs cs]. unfold transformed_node. simpl.
  rewrite length_map. split_and!; [done..|].
  destruct k; try reflexivity; unfold entry_attrs; simpl.
  - split; [apply AttributeString_set_eq|].
    intros name Hne. by apply AttributeString_set_ne.
  - split_and!.
    + rewrite AttributeString_set_ne by done. apply AttributeString_set_eq.
    + apply AttributeString_set_eq.
    + intros name Hne1 Hne2. by rewrite !AttributeString_set_ne.
Qed.

(** What [Transform] does to a document, node by node. *)
Lemma Transform_nodes doc p n :
  node_at p doc = Some n →
  ∃ n', node_at p (Transform doc) = Some n' ∧ transformed_node n n'.
Proof.
  intros Hn. exists (entered_once n).
  rewrite Transform_entered_once, node_at_entered_once, Hn.
  split; [done|apply entered_once_transformed].
Qed.

End Positions.

(** * The markdown renderer: proofs *)

(** C1: when the conversion of a markdown source succeeds, [Markdown] returns
    what the renderer writes for the document after the pass of [Transform],
    and that pass calls the walker on entry at every node of the parsed
    document exactly once: the positions entered are the positions of the
    document, none twice. After the pass every Link node has the attributes
    target="_blank" and rel="noopener noreferrer", every Blockquote node has
    the class "border-start border-primary border-3 ps-2", and a node of any
    other kind has the attributes it had; kinds and children stay. *)
Theorem Markdown_transform_pass
    (parse : string → ast.Node)
    (render : string → ast.Node → string * option error)
    (source html : string) :
  goldmark.Convert (converter parse render) source "" = (html, None) →
  Markdown parse render source = html ∧
  html = (render source (Transform (parse source))).1 ∧
  ast.entered (Transform_trace (parse source)) = ast.positions [] (parse source) ∧
  NoDup (ast.positions [] (parse source)) ∧
  (∀ p, p ∈ ast.positions [] (parse source)
        ↔ is_Some (ast.node_at p (parse source))) ∧
  (∀ p n, ast.node_at p (parse source) = Some n →
     ∃ n', ast.node_at p (Transform (parse source)) = Some n' ∧
           transformed_node n n').
Proof.
  intros Hconv. split_and!.
  - unfold Markdown. by rewrite Hconv.
  - unfold goldmark.Convert, converter in Hconv. simpl in Hconv.
    destruct (render source (Transform (parse source))) as [written err].
    by simplify_eq.
  - apply Transform_trace_entered.
  - apply NoDup_positions.
  - intros p. rewrite (elem_of_positions (parse source) [] p). split.
    + by intros (q & -> & Hq).
    + intros Hp. by exists p.
  - intros p n. apply Transform_nodes.
Qed.

Lemma Markdown_transform_pass_witness :
  goldmark.Convert (converter sample_parse sample_render) "[a](b)" ""
  = ("border-start border-primary border-3 ps-2", None) ∧
  Markdown sample_parse sample_render "[a](b)"
  = "border-start border-primary border-3 ps-2".
Proof.
  split; [reflexivity|].
  apply (Markdown_transform_pass sample_parse sample_render "[a](b)"
           "border-start border-primary border-3 ps-2").
  reflexivity.
Defined.

(** C2: when the conversion of a markdown source returns an error, [Markdown]
    returns the source between "<p>" and "</p>", as it is: nothing of what
    the renderer wrote, no attribute and no escaping; the error is not
    passed on, the result being a plain string. *)
Theorem Markdown_fallback
    (parse : string → ast.Node)
    (render : string → ast.Node → string * option error)
    (source written : string) (err : error) :
  goldmark.Convert (converter parse render) source "" = (written, Some err) →
  Markdown parse render source = "<p>" +:+ source +:+ "</p>".
Proof. intros Hconv. unfold Markdown. by rewrite Hconv. Qed.

Lemma Markdown_fallback_witness :
  goldmark.Convert (converter sample_parse failing_render) "<script>&" ""
  = ("<p", Some (errorString "short write")) ∧
  Markdown sample_parse failing_render "<script>&" = "<p><script>&</p>".
Proof.
  split; [reflexivity|].
  apply (Markdown_fallback sample_parse failing_render "<script>&" "<p"
           (errorString "short write")).
  reflexivity.
Defined.

(** * The "Reversed" entry: proofs *)

Section Reversed.

Import reflect.

(** Reading an element of a sequence through a heap that has the backing
    arrays of [h] as they are. *)
Lemma Index_elements h h' v xs i x :
  elements h v = Some xs →
  (∀ l arr, h !! l = Some arr → h' !! l = Some arr) →
  xs !! i = Some x →
  Index h' v i = Ok x.
Proof.
  intros Hel Hsub Hi. destruct v; simplify_eq/=.
  - by rewrite Hi.
  - destruct (h !! data) as [arr|] eqn:Harr; simplify_eq/=.
    case_decide as Hle; simplify_eq.
    assert (i < len) as Hlt.
    { apply lookup_lt_Some in Hi. rewrite length_take in Hi. lia. }
    rewrite lookup_take_lt, lookup_drop in Hi by done.
    rewrite decide_True by done.
    rewrite (Hsub _ _ Harr). simpl. by rewrite Hi.
Qed.

Lemma Len_elements h v xs : elements h v = Some xs → Len v = Ok (length xs).
Proof.
  intros Hel. destruct v; simplify_eq/=; [done|].
  destruct (h !! data) as [arr|]; simplify_eq/=.
  case_decide; simplify_eq.
  rewrite length_take, length_drop. f_equal. lia.
Qed.

Lemma elements_is_sequence h v xs : elements h v = Some xs → is_sequence v = true.
Proof. by destruct v. Qed.

(** The loop of "Reversed" from [i = j] on: the new backing array has the
    first [j] elements of the input, reversed, at its end. *)
Lemma Reversed_loop_from h v xs newVal m : ∀ j,
  elements h v = Some xs →
  h !! newVal = None →
  j + m = length xs →
  Reversed_loop v (length xs) newVal (seq j m)
    (<[newVal := replicate m VNil ++ reverse (take j xs)]> h)
  = Ok (<[newVal := reverse xs]> h).
Proof.
  induction m as [|m IH]; intros j Hel Hfresh Hlen; simpl.
  - rewrite take_ge by lia. done.
  - destruct (lookup_lt_is_Some_2 xs j) as [x Hx]; [lia|].
    rewrite (Index_elements h _ v xs j x); [|done| |done].
    2:{ intros l arr Hl. rewrite lookup_insert_ne; [done|congruence]. }
    simpl. unfold store. rewrite lookup_insert_eq.
    rewrite decide_True.
    2:{ simpl. rewrite length_app, length_replicate. lia. }
    simpl. rewrite insert_insert_eq.
    replace (length xs - j - 1) with m by lia.
    change (VNil :: replicate m VNil ++ reverse (take j xs))
      with (replicate (S m) VNil ++ reverse (take j xs)).
    rewrite replicate_S_end, <- app_assoc.
    rewrite insert_app_r_alt by (by rewrite length_replicate).
    rewrite length_replicate, Nat.sub_diag. simpl.
    replace (x :: reverse (take j xs)) with (reverse (take (S j) xs)).
    2:{ by rewrite (take_S_r _ _ x), reverse_snoc. }
    apply IH; [done..|lia].
Qed.

(** "Reversed" on a sequence: a slice of interface values over a new
    backing array that holds the elements in reverse order. *)
Lemma Reversed_sequence h v xs :
  elements h v = Some xs →
  Reversed h v
  = Ok (VSlice TInterface (fresh (dom h)) 0 (length xs),
        <[fresh (dom h) := reverse xs]> h).
Proof.
  intros Hel. unfold Reversed.
  assert (Len v = Ok (length xs)) as HLen by eauto using Len_elements.
  assert (h !! fresh (dom h) = None) as Hfresh.
  { apply not_elem_of_dom, is_fresh. }
  pose proof (Reversed_loop_from h v xs (fresh (dom h)) (length xs) 0
                Hel Hfresh eq_refl) as Hloop.
  rewrite take_0, app_nil_r in Hloop.
  destruct v; simplify_eq/=; rewrite ?HLen; simpl; by rewrite Hloop.
Qed.

Lemma elements_new_slice (h : heap) l xs :
  elements (<[l := xs]> h) (VSlice TInterface l 0 (length xs)) = Some xs.
Proof.
  simpl. rewrite lookup_insert_eq. simpl.
  rewrite decide_True by done. by rewrite drop_0, firstn_all.
Qed.

Lemma elements_frame (h h' : heap) v xs :
  elements h v = Some xs →
  (∀ l arr, h !! l = Some arr → h' !! l = Some arr) →
  elements h' v = Some xs.
Proof.
  intros Hel Hsub. destruct v; simplify_eq/=; [done|].
  destruct (h !! data) as [arr|] eqn:Harr; simplify_eq/=.
  by rewrite (Hsub _ _ Harr).
Qed.

Lemma Reversed_not_sequence h v t :
  TypeOf v = Some t →
  Type_Kind t ≠ Slice → Type_Kind t ≠ Array →
  Reversed h v = Ok (v, h).
Proof.
  intros Ht Hs Ha. unfold Reversed. rewrite Ht.
  by destruct (Type_Kind t).
Qed.

End Reversed.

(** C3: for an array or a slice with the elements [xs], "Reversed" applied
    twice returns a sequence with the elements [xs] again, first to last; for
    a value of any other kind, "Reversed" returns the value it was given and
    does not panic. *)
Theorem Reversed_involution (h : reflect.heap) (v : reflect.value) :
  (∀ xs, reflect.elements h v = Some xs →
     ∃ v1 h1 v2 h2,
       Reversed h v = Ok (v1, h1) ∧ Reversed h1 v1 = Ok (v2, h2) ∧
       reflect.elements h2 v2 = Some xs) ∧
  (∀ t, reflect.TypeOf v = Some t →
     reflect.Type_Kind t ≠ reflect.Slice →
     reflect.Type_Kind t ≠ reflect.Array →
     Reversed h v = Ok (v, h)).
Proof.
  split; [|apply Reversed_not_sequence].
  intros xs Hel.
  pose proof (Reversed_sequence h v xs Hel) as H1.
  set (l1 := fresh (dom h)) in *.
  set (h1 := <[l1 := reverse xs]> h) in *.
  assert (reflect.elements h1 (reflect.VSlice reflect.TInterface l1 0 (length xs))
          = Some (reverse xs)) as Hel1.
  { rewrite <- (length_reverse xs). apply elements_new_slice. }
  pose proof (Reversed_sequence h1 _ _ Hel1) as H2.
  rewrite reverse_involutive, length_reverse in H2.
  eexists _, _, _, _. split_and!; [exact H1|exact H2|].
  apply elements_new_slice.
Qed.

Lemma Reversed_involution_witness :
  (reflect.elements sample_heap sample_slice
     = Some [reflect.VInt 20; reflect.VInt 30] ∧
   ∃ v1 h1 v2 h2,
     Reversed sample_heap sample_slice = Ok (v1, h1) ∧
     Reversed h1 v1 = Ok (v2, h2) ∧
     reflect.elements h2 v2 = Some [reflect.VInt 20; reflect.VInt 30]) ∧
  Reversed sample_heap (reflect.VInt 7) = Ok (reflect.VInt 7, sample_heap).
Proof.
  split; [split; [reflexivity|]|].
  - apply (proj1 (Reversed_involution sample_heap sample_slice)). reflexivity.
  - apply (proj2 (Reversed_involution sample_heap (reflect.VInt 7)) reflect.TInt);
      [reflexivity|discriminate|discriminate].
Defined.

(** C9: "Reversed" panics on the nil interface value, which has no type for
    [Kind] to be called on; a value that is neither a slice nor an array is
    returned as it is exactly when it is not the nil interface value. *)
Theorem Reversed_nil_panics (h : reflect.heap) :
  (∃ msg, Reversed h reflect.VNil = Panic msg) ∧
  (∀ v, is_sequence v = false →
     (Reversed h v = Ok (v, h) ↔ v ≠ reflect.VNil)).
Proof.
  split; [by eexists|].
  intros v Hseq. split.
  - by intros HR ->.
  - intros Hnil. unfold is_sequence in Hseq.
    destruct (reflect.TypeOf v) as [t|] eqn:Ht; [|by destruct v].
    apply (Reversed_not_sequence h v t Ht);
      by destruct (reflect.Type_Kind t).
Qed.

Lemma Reversed_nil_panics_witness :
  is_sequence (reflect.VString "x") = false ∧
  (Reversed sample_heap (reflect.VString "x")
     = Ok (reflect.VString "x", sample_heap)
   ↔ reflect.VString "x" ≠ reflect.VNil).
Proof.
  split; [reflexivity|].
  apply (proj2 (Reversed_nil_panics sample_heap) (reflect.VString "x")).
  reflexivity.
Defined.

(** C10: for an array or a slice with the elements [xs], "Reversed" returns a
    slice of interface values of the same length over a backing array at an
    address that was not in use; element [i] of the result is element
    [length xs - i - 1] of the input; every backing array that was in use,
    that of the input among them, holds what it held, and the input has the
    elements it had. *)
Theorem Reversed_fresh_copy (h : reflect.heap) (v : reflect.value)
    (xs : list reflect.value) :
  reflect.elements h v = Some xs →
  ∃ newVal h' ys,
    Reversed h v
    = Ok (reflect.VSlice reflect.TInterface newVal 0 (length xs), h') ∧
    h !! newVal = None ∧
    (∀ l arr, h !! l = Some arr → h' !! l = Some arr) ∧
    reflect.elements h' v = Some xs ∧
    reflect.elements h' (reflect.VSlice reflect.TInterface newVal 0 (length xs))
    = Some ys ∧
    length ys = length xs ∧
    (∀ i, i < length xs → ys !! i = xs !! (length xs - i - 1)).
Proof.
  intros Hel.
  assert (h !! fresh (dom h) = None) as Hfresh.
  { apply not_elem_of_dom, is_fresh. }
  assert (∀ l arr, h !! l = Some arr →
            <[fresh (dom h) := reverse xs]> h !! l = Some arr) as Hframe.
  { intros l arr Hl. rewrite lookup_insert_ne; [done|congruence]. }
  exists (fresh (dom h)), (<[fresh (dom h) := reverse xs]> h), (reverse xs).
  split_and!.
  - by apply Reversed_sequence.
  - done.
  - done.
  - by apply (elements_frame h).
  - rewrite <- (length_reverse xs). apply elements_new_slice.
  - apply length_reverse.
  - intros i Hi. rewrite reverse_lookup by done. f_equal. lia.
Qed.

Lemma Reversed_fresh_copy_witness :
  reflect.elements sample_heap sample_array
  = Some [reflect.VString "a"; reflect.VString "b"; reflect.VString "c"] ∧
  ∃ newVal h' ys,
    Reversed sample_heap sample_array
    = Ok (reflect.VSlice reflect.TInterface newVal 0 3, h') ∧
    sample_heap !! newVal = None ∧
    (∀ l arr, sample_heap !! l = Some arr → h' !! l = Some arr) ∧
    reflect.elements h' sample_array
    = Some [reflect.VString "a"; reflect.VString "b"; reflect.VString "c"] ∧
    reflect.elements h' (reflect.VSlice reflect.TInterface newVal 0 3) = Some ys ∧
    length ys = 3 ∧
    (∀ i, i < 3 →
       ys !! i
       = [reflect.VString "a"; reflect.VString "b"; reflect.VString "c"] !! (3 - i - 1)).
Proof.
  split; [reflexivity|].
  apply (Reversed_fresh_copy sample_heap sample_array
           [reflect.VString "a"; reflect.VString "b"; reflect.VString "c"]).
  reflexivity.
Defined.

Example Reversed_sample_slice :
  Reversed sample_heap sample_slice
  = Ok (reflect.VSlice reflect.TInterface 2%positive 0 2,
        <[2%positive := [reflect.VInt 30; reflect.VInt 20]]> sample_heap).
Proof. vm_compute. reflexivity. Qed.

(** * The package helpers: proofs *)

(** The predicates answer false for the nil interface and for a handle that
    reports to be nil; "PackageManifestUrl" answers the empty string for a
    handle that reports to be nil and when the lookup returns an error. *)
Lemma package_helpers_defaults (clientset : repoclient.RepoClientset) :
  AutoUpdateEnabled None = Ok false ∧
  IsSuspended None = Ok false ∧
  (∀ o, ctrlpkg.IsNil o = true →
     AutoUpdateEnabled (Some o) = Ok false ∧
     IsSuspended (Some o) = Ok false ∧
     PackageManifestUrl clientset (Some o) = Ok "") ∧
  (∀ o spec url err,
     ctrlpkg.IsNil o = false →
     ctrlpkg.GetSpec o = Ok spec →
     repoclient.GetPackageManifestURL (repoclient.ForPackage clientset (Some o))
       (ctrlpkg.Name (ctrlpkg.PackageInfo spec))
       (ctrlpkg.Version (ctrlpkg.PackageInfo spec)) = (url, Some err) →
     PackageManifestUrl clientset (Some o) = Ok "").
Proof.
  split_and!; [done..| |].
  - intros o Hnil. unfold AutoUpdateEnabled, IsSuspended, PackageManifestUrl.
    simpl. by rewrite Hnil.
  - intros o spec url err Hnil Hspec Hurl. unfold PackageManifestUrl.
    simpl. rewrite Hnil, Hspec. simpl. by rewrite Hurl.
Qed.

(** C6: on the nil interface value, "AutoUpdateEnabled" and "IsSuspended"
    return false, and "PackageManifestUrl", which calls [pkg.IsNil()] without
    comparing [pkg] with nil first, panics instead of returning the empty
    string. *)
Theorem PackageManifestUrl_nil_interface (clientset : repoclient.RepoClientset) :
  AutoUpdateEnabled None = Ok false ∧
  IsSuspended None = Ok false ∧
  PackageManifestUrl clientset None
  = Panic "invalid memory address or nil pointer dereference".
Proof. done. Qed.

(** * The watcher: proofs *)

Lemma is_ok_true {A : Type} (r : result A) : is_ok r = true → ∃ a, r = Ok a.
Proof. destruct r; [eauto|discriminate]. Qed.

Lemma sample_fs_compiles : compiles sample_env sample_fs.
Proof. intros t. apply is_ok_true. vm_compute. reflexivity. Qed.

Lemma edited_fs_compiles : compiles sample_env edited_fs.
Proof. intros t. apply is_ok_true. vm_compute. reflexivity. Qed.

(** The loop calls [parseTemplates] once for each event while the calls
    return. *)
Lemma eventLoop_returns env events : ∀ t,
  Forall (fun c : fsnotify.change => compiles env c.2) events →
  ∃ t', eventLoop env events t = (events.*1, Ok t').
Proof.
  induction events as [|[ev fsys] events IH]; intros t Hall; simpl.
  - by exists t.
  - apply Forall_cons in Hall as [Hc Hall].
    destruct (Hc t) as [t1 Ht1]. simpl in Ht1. rewrite Ht1.
    destruct (IH t1 Hall) as [t' ->]. by exists t'.
Qed.

Lemma eventLoop_ok env events : ∀ t t',
  (eventLoop env events t).2 = Ok t' →
  (eventLoop env events t).1 = events.*1.
Proof.
  induction events as [|[ev fsys] events IH]; intros t t'; simpl; [done|].
  destruct (parseTemplates (with_webFs env fsys) t) as [t1|msg]; [|done].
  specialize (IH t1 t').
  destruct (eventLoop env events t1) as [calls r]. simpl in *.
  intros Hr. by rewrite IH.
Qed.

Lemma eventLoop_panic env events : ∀ t msg,
  (eventLoop env events t).2 = Panic msg →
  ∃ before c after t1,
    events = before ++ c :: after ∧
    (eventLoop env events t).1 = (before ++ [c]).*1 ∧
    parseTemplates (with_webFs env c.2) t1 = Panic msg.
Proof.
  induction events as [|[ev fsys] events IH]; intros t msg; simpl; [done|].
  destruct (parseTemplates (with_webFs env fsys) t) as [t1|msg'] eqn:Hp.
  - specialize (IH t1 msg).
    destruct (eventLoop env events t1) as [calls r]. simpl in *.
    intros Hr. destruct (IH Hr) as (before & c & after & t2 & -> & -> & Hc).
    by exists ((ev, fsys) :: before), c, after, t2.
  - simpl. intros [= ->]. by exists [], (ev, fsys), events, t.
Qed.

(** What [watchTemplates] does, for each answer of the operating system to
    the three registrations. *)
Lemma watchTemplates_cases (os : fsnotify.OS) (w : watching) :
  watchTemplates os = Ok w →
  fsnotify.newWatcher_err os = None ∧
  returned w
  = multierr.Combine (None :: map (fsnotify.add_err os) watchSet) ∧
  watcher w
  = Some (fsnotify.mkWatcher
            (filter (fun dir => fsnotify.add_err os dir = None) watchSet)) ∧
  started w = (if returned w is None then true else false).
Proof.
  assert (path.Join [templatesBaseDir; componentsDir]
          = "internal/web/templates/components") as Hc by reflexivity.
  assert (path.Join [templatesBaseDir; templatesDir; "layout"]
          = "internal/web/templates/layout") as Hl by reflexivity.
  assert (path.Join [templatesBaseDir; pagesDir]
          = "internal/web/templates/pages") as Hp by reflexivity.
  unfold watchTemplates, fsnotify.NewWatcher, fsnotify.Add, watchSet.
  rewrite Hc, Hl, Hp. clear Hc Hl Hp.
  destruct (fsnotify.newWatcher_err os) as [e0|]; [done|]. simpl.
  destruct (fsnotify.add_err os "internal/web/templates/components")
    as [e1|] eqn:H1; simpl;
  destruct (fsnotify.add_err os "internal/web/templates/layout")
    as [e2|] eqn:H2; simpl;
  destruct (fsnotify.add_err os "internal/web/templates/pages")
    as [e3|] eqn:H3; simpl;
  intros Hw; injection Hw as <-; simpl; split_and!; try done;
  rewrite ?filter_cons, ?filter_nil; simpl;
  repeat (case_decide; simplify_eq); done.
Qed.

Lemma Combine_None errors :
  multierr.Combine errors = None ↔ Forall (fun err => err = None) errors.
Proof.
  unfold multierr.Combine. split.
  - intros Hc.
    assert (omap id errors = []) as Hnil.
    { destruct (omap id errors) as [|e1 [|e2 errs]]; done. }
    clear Hc. induction errors as [|[e|] errors IH]; simpl in *;
      [constructor|done|constructor; auto].
  - intros Hall.
    assert (omap id errors = []) as ->; [|done].
    induction Hall as [|err errors -> _ IH]; simpl; [done|exact IH].
Qed.

(** The goroutine is started exactly when every registration succeeded. *)
Lemma watchTemplates_started (os : fsnotify.OS) (w : watching) :
  watchTemplates os = Ok w →
  (started w = true ↔ ∀ dir, dir ∈ watchSet → fsnotify.add_err os dir = None).
Proof.
  intros Hw. destruct (watchTemplates_cases os w Hw) as (_ & Hret & _ & Hst).
  rewrite Hst. rewrite <- Forall_forall. split.
  - intros Hs. destruct (returned w) eqn:Hr; [done|].
    symmetry in Hret. apply Combine_None in Hret.
    apply Forall_cons in Hret as [_ Hret].
    by apply Forall_fmap in Hret.
  - intros Hall.
    assert (returned w = None) as ->; [|done].
    rewrite Hret. apply Combine_None. constructor; [done|].
    by apply Forall_fmap.
Qed.

(** C4 (as the code has it): when the registration of at least one directory
    fails, [watchTemplates] returns the combined error of the registrations
    and does not start the loop that recompiles: the directories whose
    registration succeeded are registered with the watcher, and no change of
    the file system leads to a call of [parseTemplates]. *)
Theorem watchTemplates_error_no_reload (os : fsnotify.OS) (w : watching) :
  watchTemplates os = Ok w →
  (∃ dir, dir ∈ watchSet ∧ fsnotify.add_err os dir ≠ None) →
  returned w = multierr.Combine (None :: map (fsnotify.add_err os) watchSet) ∧
  returned w ≠ None ∧
  watcher w
  = Some (fsnotify.mkWatcher
            (filter (fun dir => fsnotify.add_err os dir = None) watchSet)) ∧
  started w = false ∧
  (∀ env t changes, recompilations os env t changes = Ok []).
Proof.
  intros Hw (dir & Hdir & Hfail).
  destruct (watchTemplates_cases os w Hw) as (_ & Hret & Hwatcher & Hst).
  assert (started w = false) as Hns.
  { destruct (started w) eqn:Hs; [|done].
    destruct (watchTemplates_started os w Hw) as [Hall _].
    destruct Hfail. by apply Hall. }
  split_and!; [done| |done|done|].
  - intros Hnone. rewrite Hnone in Hst. congruence.
  - intros env t changes. unfold recompilations. rewrite Hw. simpl.
    by rewrite Hns.
Qed.

Lemma watchTemplates_error_no_reload_witness :
  watchTemplates pages_fail_os
  = Ok (mkWatching (Some (errorString "no space left on device"))
          (Some (fsnotify.mkWatcher
                   ["internal/web/templates/components";
                    "internal/web/templates/layout"]))
          false) ∧
  ∀ env t changes, recompilations pages_fail_os env t changes = Ok [].
Proof.
  split; [reflexivity|].
  eapply (watchTemplates_error_no_reload pages_fail_os).
  - reflexivity.
  - exists "internal/web/templates/pages". split; [|done].
    unfold watchSet. vm_compute. set_solver.
Defined.

(** C4, as stated, fails: the registration of the pages directory failing,
    that of the components directory succeeds, and a write to a component,
    which compiles, leads to no call of [parseTemplates]; with every
    registration succeeding the same write leads to one. *)
Lemma watchTemplates_partial_failure_counterexample :
  watchTemplates pages_fail_os
  = Ok (mkWatching (Some (errorString "no space left on device"))
          (Some (fsnotify.mkWatcher
                   ["internal/web/templates/components";
                    "internal/web/templates/layout"]))
          false) ∧
  fsnotify.Events
    (Some (fsnotify.mkWatcher
             ["internal/web/templates/components";
              "internal/web/templates/layout"]))
    (take 1 sample_changes)
  = take 1 sample_changes ∧
  recompilations pages_fail_os sample_env new_templates (take 1 sample_changes)
  = Ok [] ∧
  recompilations ok_os sample_env new_templates (take 1 sample_changes)
  = Ok (take 1 sample_changes).*1.
Proof. vm_compute. done. Qed.

(** * The composition of the templates: proofs *)

Lemma globAll_inl fsys patterns filenames :
  template.globAll fsys patterns = inl filenames →
  filenames = patterns ≫= template.Glob fsys.
Proof.
  revert filenames. induction patterns as [|pattern rest IH]; intros filenames; simpl.
  - by intros [= <-].
  - destruct (template.Glob fsys pattern) as [|name list] eqn:Hg; [done|].
    destruct (template.globAll fsys rest) as [others|err]; [|done].
    intros [= <-]. by rewrite (IH others).
Qed.

Lemma parseFiles_ok parser fsys filenames : ∀ t t',
  template.parseFiles parser fsys t filenames = (t', None) →
  template.Name t' = template.Name t ∧
  template.funcs t' = template.funcs t ∧
  template.texts t' = template.texts t ++ file_texts fsys filenames.
Proof.
  induction filenames as [|filename rest IH]; intros t t'; simpl.
  - intros [= <-]. by rewrite app_nil_r.
  - unfold file_texts. simpl.
    destruct (template.ReadFile fsys filename) as [s|]; [|done].
    destruct (parser _ s); [done|].
    intros Hrest. apply IH in Hrest as (HN & HF & HT). simpl in *.
    split_and!; [done..|]. by rewrite HT, <- app_assoc.
Qed.

Lemma ParseFS_ok parser t fsys patterns t' :
  template.Must (template.ParseFS parser t fsys patterns) = Ok t' →
  template.Name t' = template.Name t ∧
  template.funcs t' = template.funcs t ∧
  template.texts t'
  = template.texts t ++ file_texts fsys (patterns ≫= template.Glob fsys).
Proof.
  unfold template.ParseFS.
  destruct (template.globAll fsys patterns) as [filenames|err] eqn:Hg; [|done].
  apply globAll_inl in Hg as ->.
  destruct (patterns ≫= template.Glob fsys) as [|name names] eqn:Hfiles; [done|].
  destruct (template.parseFiles _ _ _ _) as [t1 [err|]] eqn:Hp; [done|].
  simpl. intros [= <-]. by apply parseFiles_ok in Hp.
Qed.

Lemma pageTmpl_inv env t fileName p :
  pageTmpl env t fileName = Ok p →
  ∃ base, get F_baseTemplate t = Some base ∧ is_page env base fileName p.
Proof.
  unfold pageTmpl. simpl. destruct (baseTemplate t) as [base|]; [|done].
  simpl. intros Hp. exists base. split; [done|].
  apply ParseFS_ok in Hp as (HN & HF & HT).
  split_and!; [done..|]. rewrite HT. simpl. by rewrite app_nil_r.
Qed.

Lemma required_files (required : list string) (acc : list string) :
  foldl (fun tpls requiredTmpl =>
           tpls ++ [path.Join [componentsDir; requiredTmpl +:+ ".html"]])
    acc required
  = acc ++ map component_file required.
Proof.
  revert acc. induction required as [|r required IH]; intros acc; simpl.
  - by rewrite app_nil_r.
  - by rewrite IH, <- app_assoc.
Qed.

Lemma componentTmpl_inv env t id required c :
  componentTmpl env t id required = Ok c →
  is_component env (templateFuncs t) id required c.
Proof.
  unfold componentTmpl. rewrite required_files. intros Hc.
  apply ParseFS_ok in Hc as (HN & HF & HT).
  split_and!; [done| |].
  - rewrite HF. simpl. apply map_union_empty.
  - rewrite HT. cbn [template.texts template.Funcs template.New app].
    change [path.Join [componentsDir; id +:+ ".html"]]
      with (map component_file [id]).
    rewrite <- map_app. f_equal. generalize (required ++ [id]). intros l.
    induction l as [|r l IH]; [done|].
    rewrite map_cons, !bind_cons. by rewrite IH.
Qed.

Lemma get_set_eq f v t : get f (set f v t) = v.
Proof. by destruct f. Qed.

Lemma get_set_ne f g v t : f ≠ g → get g (set f v t) = get g t.
Proof. by destruct f, g. Qed.

Lemma get_set_templateFuncs f m t : get f (set_templateFuncs m t) = get f t.
Proof. by destruct f. Qed.

Lemma templateFuncs_set f v t : templateFuncs (set f v t) = templateFuncs t.
Proof. done. Qed.

Lemma run_assign f e rest t t' :
  run (assign f e :: rest) t = Ok t' →
  ∃ v, e t = Ok v ∧ run rest (set f (Some v) t) = Ok t'.
Proof.
  simpl. unfold assign. destruct (e t) as [v|]; [|done]. simpl. eauto.
Qed.

Lemma run_first g rest t :
  run ((fun t => Ok (g t)) :: rest) t = run rest (g t).
Proof. done. Qed.

(** One statement [t.f = e] of a run that returns. *)
Ltac run_step H v Hv :=
  apply run_assign in H as (v & Hv & H); cbv beta in Hv.

(** The base layout a page was cloned from, read through the assignments
    made since. *)
Ltac page_of Hp base :=
  let b := fresh "b" in
  let Hb := fresh "Hb" in
  apply pageTmpl_inv in Hp as (b & Hb & Hp);
  rewrite ?get_set_ne in Hb by done;
  rewrite get_set_eq in Hb;
  injection Hb as <-.

Ltac component_of Hc env t :=
  apply componentTmpl_inv in Hc;
  change (templateFuncs _) with (funcMap env t) in Hc.

Lemma ReadFile_elem_of (fsys : template.FS) name s :
  template.ReadFile fsys name = Some s → name ∈ fsys.*1.
Proof.
  unfold template.ReadFile. intros Hread.
  destruct (list_find _ fsys) as [[i [name' s']]|] eqn:Hfind; simplify_eq/=.
  apply list_find_Some in Hfind as (Hi & Hname & _). simpl in Hname. subst.
  apply list_elem_of_fmap. exists (name, s). split; [done|].
  by eapply list_elem_of_lookup_2.
Qed.

Lemma elem_of_Glob (fsys : template.FS) pattern name :
  name ∈ template.Glob fsys pattern
  ↔ path.Match pattern name = true ∧ name ∈ fsys.*1.
Proof.
  unfold template.Glob.
  apply (list_elem_of_filter (fun name => path.Match pattern name = true)).
Qed.

Lemma elem_of_file_texts (fsys : template.FS) names name s :
  name ∈ names → template.ReadFile fsys name = Some s →
  (path.Base name, s) ∈ file_texts fsys names.
Proof.
  intros Hin Hread. unfold file_texts. apply list_elem_of_bind.
  exists name. rewrite Hread. split; [apply list_elem_of_singleton|]; done.
Qed.

(** A page has every file the pattern of the components matches. *)
Lemma page_has_components env base fileName p name s :
  is_page env base fileName p →
  template.ReadFile (webFs env) name = Some s →
  path.Match all_components name = true →
  (path.Base name, s) ∈ template.texts p.
Proof.
  intros (_ & _ & ->) Hread Hmatch.
  apply elem_of_app. right. apply elem_of_file_texts; [|done].
  apply elem_of_app. right. apply elem_of_Glob.
  eauto using ReadFile_elem_of.
Qed.

(** C8: a run of [parseTemplates] that returns leaves in the registry the
    function map built in this run, the base layout parsed from the layout
    file with that function map attached, for every page the clone of that
    base layout with the file of the page and every file of the components
    parsed into it, so that every component is in every page, and for every
    component on its own a template with the function map attached and only
    the files of the components listed with it and its own file parsed. *)
Theorem parseTemplates_composition (env : Env) (t t' : templates) :
  parseTemplates env t = Ok t' →
  templateFuncs t' = funcMap env t ∧
  ∃ base,
    get F_baseTemplate t' = Some base ∧
    is_base env (funcMap env t) base ∧
    (∀ f fileName, (f, fileName) ∈ pages →
       ∃ p, get f t' = Some p ∧ is_page env base fileName p ∧
            ∀ name s,
              template.ReadFile (webFs env) name = Some s →
              path.Match all_components name = true →
              (path.Base name, s) ∈ template.texts p) ∧
    (∀ f id required, (f, id, required) ∈ components →
       ∃ c, get f t' = Some c ∧
            is_component env (funcMap env t) id required c).
Proof.
  intros H. unfold parseTemplates, parseTemplates_stmts in H.
  rewrite (run_first (fun t => set_templateFuncs (funcMap env t) t)) in H.
  unfold assignments in H. cbn [map fst snd] in H.
  run_step H base Hbase.
  run_step H p1 Hp1. run_step H p2 Hp2. run_step H p3 Hp3.
  run_step H p4 Hp4. run_step H p5 Hp5. run_step H p6 Hp6.
  run_step H p7 Hp7. run_step H p8 Hp8. run_step H p9 Hp9.
  run_step H c1 Hc1. run_step H c2 Hc2. run_step H c3 Hc3.
  run_step H c4 Hc4. run_step H c5 Hc5. run_step H c6 Hc6.
  run_step H c7 Hc7.
  injection H as <-.
  page_of Hp1 base. page_of Hp2 base. page_of Hp3 base. page_of Hp4 base.
  page_of Hp5 base. page_of Hp6 base. page_of Hp7 base. page_of Hp8 base.
  page_of Hp9 base.
  component_of Hc1 env t. component_of Hc2 env t. component_of Hc3 env t.
  component_of Hc4 env t. component_of Hc5 env t. component_of Hc6 env t.
  component_of Hc7 env t.
  split; [reflexivity|]. exists base. split_and!.
  - reflexivity.
  - apply ParseFS_ok in Hbase as (HN & HF & HT).
    split_and!; [exact HN| |].
    + rewrite HF. cbn [template.funcs template.Funcs template.New].
      apply map_union_empty.
    + rewrite HT. simpl. by rewrite app_nil_r.
  - intros f fileName Hin. unfold pages in Hin.
    repeat (apply elem_of_cons in Hin as [Hin|Hin]; [injection Hin as -> ->|]);
      [..|by apply elem_of_nil in Hin].
    all: rewrite ?get_set_ne by done; rewrite get_set_eq.
    all: eexists; (split; [reflexivity|]);
      match goal with
      | Hp : is_page _ _ ?file ?p |- is_page _ _ ?file ?p ∧ _ =>
          split; [exact Hp|]; intros name s;
          exact (page_has_components _ _ _ _ name s Hp)
      end.
  - intros f id required Hin. unfold components in Hin.
    repeat (apply elem_of_cons in Hin as [Hin|Hin]; [injection Hin as -> -> ->|]);
      [..|by apply elem_of_nil in Hin].
    all: rewrite ?get_set_ne by done; rewrite get_set_eq.
    all: eexists; (split; [reflexivity|]);
      match goal with
      | Hc : is_component _ _ ?id _ ?c |- is_component _ _ ?id _ ?c => exact Hc
      end.
Qed.

Lemma parseTemplates_composition_witness :
  ∃ t',
    parseTemplates sample_env new_templates = Ok t' ∧
    templateFuncs t' = funcMap sample_env new_templates ∧
    ∃ base, get F_baseTemplate t' = Some base ∧
            is_base sample_env (funcMap sample_env new_templates) base.
Proof.
  assert (∃ t', parseTemplates sample_env new_templates = Ok t') as [t' Ht'].
  { apply is_ok_true. vm_compute. reflexivity. }
  exists t'. split; [exact Ht'|].
  destruct (parseTemplates_composition sample_env new_templates t' Ht')
    as (Hfuncs & base & Hget & Hbase & _).
  split; [exact Hfuncs|]. exists base. split; [exact Hget|exact Hbase].
Defined.

(** * A lookup while [parseTemplates] runs: proofs *)

Lemma run_app l1 l2 t :
  run (l1 ++ l2) t = run l1 t ≫= run l2.
Proof.
  revert t. induction l1 as [|stmt l1 IH]; intros t; simpl; [done|].
  destruct (stmt t) as [t1|msg]; simpl; [apply IH|done].
Qed.

(** A run of assignments changes the fields assigned and no other. *)
Lemma run_assignments (l : list (Field * (templates → result template.Template))) :
  ∀ s s', run (map (fun a => assign a.1 a.2) l) s = Ok s' →
    templateFuncs s' = templateFuncs s ∧
    ∀ f, f ∉ l.*1 → get f s' = get f s.
Proof.
  induction l as [|[g e] l IH]; intros s s'.
  - simpl. by intros [= <-].
  - rewrite map_cons, fmap_cons. cbn [fst snd]. intros Hrun.
    apply run_assign in Hrun as (v & Hv & Hrun).
    apply IH in Hrun as [Hfuncs Hget]. split; [exact Hfuncs|].
    intros f Hf. apply not_elem_of_cons in Hf as [Hne Hf].
    rewrite (Hget f Hf). by apply get_set_ne.
Qed.

Lemma assignments_fields env : (assignments env).*1 = fields_in_order.
Proof. reflexivity. Qed.

Lemma NoDup_fields_in_order : NoDup fields_in_order.
Proof.
  refine (bool_decide_unpack (NoDup fields_in_order) _).
  vm_compute. exact I.
Qed.

(** The registry after the first [k] statements of a run that returns: the
    fields assigned so far hold what they hold at the end, the others what
    they held at the start. *)
Lemma in_progress_get env t t' :
  parseTemplates env t = Ok t' →
  ∀ k, ∃ s, in_progress env k t = Ok s ∧
    templateFuncs s = (if decide (k = 0) then templateFuncs t else templateFuncs t') ∧
    ∀ f, get f s = if decide (f ∈ assigned k) then get f t' else get f t.
Proof.
  intros H k. unfold in_progress, assigned.
  unfold parseTemplates, parseTemplates_stmts in *.
  destruct k as [|j].
  { exists t. split_and!; [done..|]. intros f.
    case_decide as Hf; [|done]. by apply elem_of_nil in Hf. }
  cbn [take]. rewrite <- fmap_take.
  rewrite (run_first (fun t => set_templateFuncs (funcMap env t) t)) in *.
  set (t0 := set_templateFuncs (funcMap env t) t) in *.
  rewrite <- (take_drop j (assignments env)), fmap_app, run_app in H.
  pose proof (assignments_fields env) as Hfields.
  rewrite <- (take_drop j (assignments env)), fmap_app in Hfields.
  pose proof NoDup_fields_in_order as Hnodup. rewrite <- Hfields in Hnodup.
  apply NoDup_app in Hnodup as (_ & Hdisj & _).
  replace (S j - 1) with j by lia.
  replace (take j fields_in_order) with (take j (assignments env)).*1
    by (by rewrite fmap_take).
  destruct (run ((λ a, assign a.1 a.2) <$> take j (assignments env)) t0)
    as [s|msg] eqn:Hs; [|done].
  simpl in H. exists s. split; [done|].
  apply run_assignments in Hs as [Hfs Hgs].
  apply run_assignments in H as [Hft Hgt].
  split; [by rewrite Hft|].
  intros f. case_decide as Hf.
  - symmetry. apply Hgt. by apply Hdisj.
  - rewrite (Hgs f Hf). apply get_set_templateFuncs.
Qed.

(** C7 (as the code has it): [parseTemplates] assigns the fields of the
    registry one after the other. A lookup that runs after the first [k]
    statements of a run that returns gets, for each field, the template the
    field held before the run or the one it holds after it, whole; the fields
    assigned so far hold the new templates and the others the previous
    ones. *)
Theorem in_progress_each_field (env : Env) (t t' : templates) :
  parseTemplates env t = Ok t' →
  ∀ k, ∃ s,
    in_progress env k t = Ok s ∧
    (∀ f, get f s = if decide (f ∈ assigned k) then get f t' else get f t) ∧
    (∀ f, get f s = get f t ∨ get f s = get f t').
Proof.
  intros H k. destruct (in_progress_get env t t' H k) as (s & Hs & _ & Hget).
  exists s. split_and!; [exact Hs|exact Hget|].
  intros f. rewrite (Hget f). case_decide; [by right|by left].
Qed.

Lemma in_progress_each_field_witness :
  ∃ t' s,
    parseTemplates sample_env new_templates = Ok t' ∧
    in_progress sample_env 2 new_templates = Ok s ∧
    get F_baseTemplate s = get F_baseTemplate t' ∧
    get F_pkgsPageTmpl s = None.
Proof.
  assert (∃ t', parseTemplates sample_env new_templates = Ok t') as [t' Ht'].
  { apply is_ok_true. vm_compute. reflexivity. }
  destruct (in_progress_each_field sample_env new_templates t' Ht' 2)
    as (s & Hs & Hget & _).
  exists t', s. split_and!; [exact Ht'|exact Hs| |].
  - rewrite (Hget F_baseTemplate). apply decide_True. apply list_elem_of_here.
  - rewrite (Hget F_pkgsPageTmpl). apply decide_False.
    intros Hin. apply list_elem_of_singleton in Hin. discriminate Hin.
Defined.

(** C7, as stated, fails: the registry compiled from the sample files being
    recompiled after an edit of the base layout, a lookup after the second
    statement of [parseTemplates] finds the new base layout next to a page
    that still holds the previous base layout: templates of two compile
    cycles. *)
Lemma in_progress_mixed_counterexample :
  match parseTemplates sample_env new_templates with
  | Ok old =>
      match parseTemplates edited_env old, in_progress edited_env 2 old with
      | Ok new, Ok s =>
          texts_of s F_baseTemplate = Some [("base.html", "<html lang=en></html>")] ∧
          texts_of s F_baseTemplate = texts_of new F_baseTemplate ∧
          texts_of s F_baseTemplate ≠ texts_of old F_baseTemplate ∧
          texts_of s F_pkgsPageTmpl = texts_of old F_pkgsPageTmpl ∧
          texts_of s F_pkgsPageTmpl ≠ texts_of new F_pkgsPageTmpl ∧
          (texts_of s F_pkgsPageTmpl ≫= head) = Some ("base.html", "<html></html>")
      | _, _ => False
      end
  | Panic _ => False
  end.
Proof.
  vm_compute.
  split_and!; [reflexivity|reflexivity|discriminate|reflexivity|discriminate|reflexivity].
Qed.

(** * More about the AST transformer *)

Lemma SetAttributeString_id attrs name value :
  ast.AttributeString attrs name = Some value →
  ast.SetAttributeString attrs name value = attrs.
Proof.
  induction attrs as [|[n v] attrs IH]; simpl; [done|].
  destruct (decide (n = name)) as [->|Hne].
  - by intros [= ->].
  - intros Hrest. by rewrite IH.
Qed.

Lemma entry_attrs_idempotent k attrs :
  entry_attrs k (entry_attrs k attrs) = entry_attrs k attrs.
Proof.
  destruct k; try reflexivity; unfold entry_attrs; simpl.
  - apply SetAttributeString_id, AttributeString_set_eq.
  - rewrite (SetAttributeString_id _ "target" "_blank").
    + apply SetAttributeString_id, AttributeString_set_eq.
    + rewrite AttributeString_set_ne by done. apply AttributeString_set_eq.
Qed.

Lemma entered_once_idempotent n : entered_once (entered_once n) = entered_once n.
Proof.
  induction n as [k attrs cs IH] using Node_ind'. simpl.
  rewrite entry_attrs_idempotent. f_equal.
  induction IH as [|c cs Hc _ IHcs]; simpl; [done|]. by rewrite Hc, IHcs.
Qed.

(** X1: running the transformer on a document it has run on changes
    nothing: the attributes it sets are set once, in place. *)
Theorem Transform_idempotent (doc : ast.Node) :
  Transform (Transform doc) = Transform doc.
Proof. rewrite !Transform_entered_once. apply entered_once_idempotent. Qed.

Lemma SetAttributeString_names attrs name value :
  ast.Name <$> ast.SetAttributeString attrs name value
  = if decide (name ∈ ast.Name <$> attrs) then ast.Name <$> attrs
    else (ast.Name <$> attrs) ++ [name].
Proof.
  induction attrs as [|[n v] attrs IH].
  - case_decide as Hin; [by apply elem_of_nil in Hin|done].
  - cbn [ast.SetAttributeString ast.Name]. rewrite fmap_cons.
    cbn [ast.Name].
    destruct (decide (n = name)) as [->|Hne].
    + rewrite fmap_cons. cbn [ast.Name].
      rewrite decide_True; [done|]. apply list_elem_of_here.
    + rewrite fmap_cons, IH. cbn [ast.Name].
      destruct (decide (name ∈ ast.Name <$> attrs)) as [Hin|Hnin].
      * rewrite decide_True; [done|]. by apply list_elem_of_further.
      * rewrite decide_False; [done|].
        intros Hin. apply elem_of_cons in Hin as [->|Hin]; done.
Qed.

Lemma SetAttributeString_NoDup attrs name value :
  NoDup (ast.Name <$> attrs) →
  NoDup (ast.Name <$> ast.SetAttributeString attrs name value).
Proof.
  intros Hnd. rewrite SetAttributeString_names. case_decide as Hin; [done|].
  apply NoDup_app. split_and!; [done| |apply NoDup_singleton].
  intros x Hx Hx'. apply list_elem_of_singleton in Hx'. by subst.
Qed.

Lemma entered_once_unique_names n :
  unique_attribute_names n → unique_attribute_names (entered_once n).
Proof.
  destruct n as [k attrs cs]. unfold unique_attribute_names. simpl.
  intros Hnd. destruct k; try done; unfold entry_attrs; simpl;
    auto using SetAttributeString_NoDup.
Qed.

(** X2: the transformer keeps the names of the attributes of every node
    unique: on a node that has a target, a rel or a class attribute already
    it replaces the value and adds no second attribute of that name. *)
Theorem Transform_unique_attribute_names (doc : ast.Node) :
  every_node unique_attribute_names doc →
  every_node unique_attribute_names (Transform doc).
Proof.
  intros Hdoc p n'. rewrite Transform_entered_once, node_at_entered_once.
  destruct (ast.node_at p doc) as [n|] eqn:Hn; [|done].
  simpl. intros [= <-]. apply entered_once_unique_names. by eapply Hdoc.
Qed.

Lemma every_node_positions (P : ast.Node → Prop) doc :
  Forall (fun p => ∀ n, ast.node_at p doc = Some n → P n) (ast.positions [] doc) →
  every_node P doc.
Proof.
  intros Hall p n Hn. rewrite Forall_forall in Hall. apply (Hall p); [|done].
  apply elem_of_positions. exists p. by rewrite Hn.
Qed.

Lemma Transform_unique_attribute_names_witness :
  every_node unique_attribute_names sample_doc ∧
  every_node unique_attribute_names (Transform sample_doc).
Proof.
  assert (every_node unique_attribute_names sample_doc) as Hdoc.
  { apply every_node_positions. vm_compute ast.positions.
    repeat (constructor; [intros n Hn; vm_compute in Hn; injection Hn as <-;
                          unfold unique_attribute_names; simpl;
                          repeat constructor; set_solver|]).
    constructor. }
  split; [exact Hdoc|].
  apply (Transform_unique_attribute_names sample_doc Hdoc).
Defined.

Lemma positions_from_entered_once pos cs :
  Forall (fun c => ∀ pos, ast.positions pos (entered_once c) = ast.positions pos c) cs →
  ∀ i, ast.positions_from ast.positions pos i (map entered_once cs)
       = ast.positions_from ast.positions pos i cs.
Proof.
  induction 1 as [|c cs Hc _ IH]; intros i; simpl; [done|].
  by rewrite Hc, IH.
Qed.

Lemma positions_entered_once n : ∀ pos,
  ast.positions pos (entered_once n) = ast.positions pos n.
Proof.
  induction n as [k attrs cs IH] using Node_ind'. intros pos. simpl.
  f_equal. by apply positions_from_entered_once.
Qed.

(** X3: the walk of the transformer never stops early and never fails, so
    the error [Transform] discards is always nil, and the document has the
    same nodes at the same positions, with the same kinds, after it. *)
Theorem Transform_walk_completes (doc : ast.Node) :
  ast.w_err (ast.Walk doc transformWalker) = None ∧
  ast.w_status (ast.Walk doc transformWalker) = ast.WalkContinue ∧
  ast.positions [] (Transform doc) = ast.positions [] doc ∧
  ∀ p, ast.Kind <$> ast.node_at p (Transform doc)
       = ast.Kind <$> ast.node_at p doc.
Proof.
  destruct (walkHelper_transform doc []) as (_ & Hs & He & _).
  split_and!; [exact He|exact Hs| |].
  - rewrite Transform_entered_once. apply positions_entered_once.
  - intros p. rewrite Transform_entered_once, node_at_entered_once.
    destruct (ast.node_at p doc) as [[k attrs cs]|]; done.
Qed.

(** X14: a node of kind AutoLink, which is what the Linkify extension makes
    of a bare URL, is no Link node for the transformer: it keeps the
    attributes it had and gets neither target nor rel. *)
Theorem Transform_AutoLink (doc : ast.Node) (p : ast.position) (n : ast.Node) :
  ast.node_at p doc = Some n →
  ast.Kind n = ast.KindAutoLink →
  ∃ n', ast.node_at p (Transform doc) = Some n' ∧
        ast.Kind n' = ast.KindAutoLink ∧
        ast.Attributes n' = ast.Attributes n.
Proof.
  intros Hn Hkind.
  destruct (Transform_nodes doc p n Hn) as (n' & Hn' & Hk & _ & Hattrs).
  exists n'. rewrite Hkind in *. by split_and!.
Qed.

Lemma Transform_AutoLink_witness :
  ast.node_at [0; 1] sample_doc = Some (ast.mkNode ast.KindAutoLink [] []) ∧
  ∃ n', ast.node_at [0; 1] (Transform sample_doc) = Some n' ∧
        ast.Kind n' = ast.KindAutoLink ∧
        ast.Attributes n' = [].
Proof.
  split; [reflexivity|].
  apply (Transform_AutoLink sample_doc [0; 1]
           (ast.mkNode ast.KindAutoLink [] [])); reflexivity.
Defined.

(** * More about the helpers of the function map *)

(** X4: for an array or a slice, whatever the type of its elements,
    "Reversed" returns a value of type []interface{}: the result has the type
    of the input only when the input is a []interface{} itself, and an array
    comes back as a slice. *)
Theorem Reversed_result_type (h : reflect.heap) (v : reflect.value)
    (xs : list reflect.value) :
  reflect.elements h v = Some xs →
  ∃ v1 h1,
    Reversed h v = Ok (v1, h1) ∧
    reflect.TypeOf v1 = Some (reflect.TSlice reflect.TInterface) ∧
    (reflect.TypeOf v1 = reflect.TypeOf v
     ↔ reflect.TypeOf v = Some (reflect.TSlice reflect.TInterface)).
Proof.
  intros Hel. rewrite (Reversed_sequence h v xs Hel).
  eexists _, _. split; [reflexivity|]. split; [reflexivity|].
  simpl. split; intros Heq; by rewrite Heq.
Qed.

Lemma Reversed_result_type_witness :
  reflect.elements sample_heap sample_array
  = Some [reflect.VString "a"; reflect.VString "b"; reflect.VString "c"] ∧
  ∃ v1 h1,
    Reversed sample_heap sample_array = Ok (v1, h1) ∧
    reflect.TypeOf v1 = Some (reflect.TSlice reflect.TInterface) ∧
    (reflect.TypeOf v1 = reflect.TypeOf sample_array
     ↔ reflect.TypeOf sample_array = Some (reflect.TSlice reflect.TInterface)).
Proof.
  split; [reflexivity|].
  apply (Reversed_result_type sample_heap sample_array
           [reflect.VString "a"; reflect.VString "b"; reflect.VString "c"]).
  reflexivity.
Defined.

(** X5: "IsRepoStatusReady" is true exactly when the first condition of type
    "Ready" has the status "True": without a condition of that type it is
    false, and a later condition of that type does not count. *)
Theorem IsRepoStatusReady_first_Ready (conditions : list (string * string)) :
  IsRepoStatusReady conditions = true ↔
  ∃ i, conditions !! i = Some ("Ready", "True") ∧
       ∀ j c, j < i → conditions !! j = Some c → c.1 ≠ "Ready".
Proof.
  unfold IsRepoStatusReady.
  destruct (list_find _ conditions) as [[i [type status]]|] eqn:Hfind.
  - apply list_find_Some in Hfind as (Hi & Htype & Hbefore).
    simpl in Htype. subst type. simpl. rewrite bool_decide_eq_true. split.
    + intros ->. exists i. split; [done|].
      intros j c Hj Hc. by apply (Hbefore j c).
    + intros (i' & Hi' & Hbefore').
      destruct (Nat.lt_trichotomy i i') as [Hlt|[->|Hgt]].
      * by destruct (Hbefore' i ("Ready", status) Hlt Hi).
      * by simplify_eq.
      * by destruct (Hbefore i' ("Ready", "True") Hi' Hgt).
  - split; [done|]. intros (i & Hi & _).
    apply list_find_None in Hfind. rewrite Forall_forall in Hfind.
    destruct (Hfind ("Ready", "True")); [|done].
    by eapply list_elem_of_lookup_2.
Qed.

(** X6: on a handle that reports to be nil, the three helpers return their
    default, false or the empty string, without calling another method of
    the handle, which may panic; and "PackageManifestUrl" returns the empty
    string when the lookup of the manifest returns an error. *)
Theorem package_helpers_nil_pointer (clientset : repoclient.RepoClientset) :
  (∀ o, ctrlpkg.IsNil o = true →
     AutoUpdateEnabled (Some o) = Ok false ∧
     IsSuspended (Some o) = Ok false ∧
     PackageManifestUrl clientset (Some o) = Ok "") ∧
  (∀ o spec url err,
     ctrlpkg.IsNil o = false →
     ctrlpkg.GetSpec o = Ok spec →
     repoclient.GetPackageManifestURL (repoclient.ForPackage clientset (Some o))
       (ctrlpkg.Name (ctrlpkg.PackageInfo spec))
       (ctrlpkg.Version (ctrlpkg.PackageInfo spec)) = (url, Some err) →
     PackageManifestUrl clientset (Some o) = Ok "").
Proof.
  destruct (package_helpers_defaults clientset) as (_ & _ & Hnil & Herr).
  split; [exact Hnil|exact Herr].
Qed.

Lemma package_helpers_nil_pointer_witness :
  (ctrlpkg.IsNil nil_pointer_object = true ∧
   AutoUpdateEnabled (Some nil_pointer_object) = Ok false ∧
   IsSuspended (Some nil_pointer_object) = Ok false ∧
   PackageManifestUrl sample_clientset (Some nil_pointer_object) = Ok "") ∧
  PackageManifestUrl failing_clientset (Some sample_object) = Ok "".
Proof.
  split.
  - split; [reflexivity|].
    apply (proj1 (package_helpers_nil_pointer sample_clientset) nil_pointer_object).
    reflexivity.
  - apply (proj2 (package_helpers_nil_pointer failing_clientset) sample_object
             (ctrlpkg.mkPackageSpec (ctrlpkg.mkPackageInfo "cert-manager" "v1.14.2") false)
             "" (errorString "no repository"));
      reflexivity.
Defined.

(** X7: "PackageManifestUrl" returns a string that is not empty only for a
    handle that is not nil and does not report to be nil, and then it is the
    URL the repository client of that package found, without an error, for
    the name and the version of the package's spec. *)
Theorem PackageManifestUrl_url (clientset : repoclient.RepoClientset)
    (pkg : ctrlpkg.Package) (url : string) :
  PackageManifestUrl clientset pkg = Ok url →
  url ≠ "" →
  ∃ o spec,
    pkg = Some o ∧ ctrlpkg.IsNil o = false ∧ ctrlpkg.GetSpec o = Ok spec ∧
    repoclient.GetPackageManifestURL (repoclient.ForPackage clientset pkg)
      (ctrlpkg.Name (ctrlpkg.PackageInfo spec))
      (ctrlpkg.Version (ctrlpkg.PackageInfo spec)) = (url, None).
Proof.
  unfold PackageManifestUrl. destruct pkg as [o|]; [|done]. simpl.
  destruct (ctrlpkg.IsNil o) eqn:Hnil; simpl; [by intros [= <-]|].
  destruct (ctrlpkg.GetSpec o) as [spec|msg] eqn:Hspec; [|done]. simpl.
  destruct (repoclient.GetPackageManifestURL _ _ _) as [url' [err|]] eqn:Hurl.
  - by intros [= <-].
  - intros [= <-] _. by exists o, spec.
Qed.

Lemma PackageManifestUrl_url_witness :
  PackageManifestUrl sample_clientset (Some sample_object)
  = Ok "https://packages.dl.glasskube.dev/cert-manager/v1.14.2" ∧
  ∃ o spec,
    Some sample_object = Some o ∧ ctrlpkg.IsNil o = false ∧
    ctrlpkg.GetSpec o = Ok spec ∧
    repoclient.GetPackageManifestURL
      (repoclient.ForPackage sample_clientset (Some sample_object))
      (ctrlpkg.Name (ctrlpkg.PackageInfo spec))
      (ctrlpkg.Version (ctrlpkg.PackageInfo spec))
    = ("https://packages.dl.glasskube.dev/cert-manager/v1.14.2", None).
Proof.
  split; [reflexivity|].
  apply (PackageManifestUrl_url sample_clientset (Some sample_object)
           "https://packages.dl.glasskube.dev/cert-manager/v1.14.2");
    [reflexivity|discriminate].
Defined.

(** * More about [parseTemplates] *)

Lemma agree_subseteq A B s s' :
  (∀ f, f ∈ B → f ∈ A) → agree A s s' → agree B s s'.
Proof. intros Hsub (Hf & Hr & Hg). split_and!; [done..|]. auto. Qed.

Lemma end_alike_subseteq A B r r' :
  (∀ f, f ∈ B → f ∈ A) → end_alike A r r' → end_alike B r r'.
Proof.
  intros Hsub. destruct r, r'; simpl; [|done..]. by apply agree_subseteq.
Qed.

Lemma agree_set A f v s s' :
  agree A s s' → agree (f :: A) (set f v s) (set f v s').
Proof.
  intros (Hf & Hr & Hg). split_and!; [done..|].
  intros g Hin. destruct (decide (f = g)) as [->|Hne].
  - by rewrite !get_set_eq.
  - rewrite !get_set_ne by done. apply Hg.
    apply elem_of_cons in Hin as [->|Hin]; done.
Qed.

Lemma run_assign_eq f e rest s :
  run (assign f e :: rest) s
  = match e s with
    | Ok v => run rest (set f (Some v) s)
    | Panic msg => Panic msg
    end.
Proof. simpl. unfold assign. by destruct (e s). Qed.

(** Runs of assignments that read only what was assigned before, from
    registries that agree, end alike. *)
Lemma run_agree l : ∀ A s s',
  reads_assigned A l → agree A s s' →
  end_alike (l.*1 ++ A)
    (run (map (fun a => assign a.1 a.2) l) s)
    (run (map (fun a => assign a.1 a.2) l) s').
Proof.
  induction l as [|[f e] l IH]; intros A s s' Hreads Hagree.
  - exact Hagree.
  - destruct Hreads as [He Hreads]. cbn [fst snd] in He, Hreads.
    rewrite map_cons, fmap_cons. cbn [fst snd]. rewrite !run_assign_eq.
    rewrite <- (He s s' Hagree). destruct (e s) as [v|msg]; simpl; [|done].
    eapply end_alike_subseteq; [|apply (IH (f :: A)); [exact Hreads|]].
    + intros g Hg. apply elem_of_app.
      apply elem_of_cons in Hg as [->|Hg].
      * right. apply list_elem_of_here.
      * apply elem_of_app in Hg as [Hg|Hg]; [by left|].
        right. by apply list_elem_of_further.
    + by apply agree_set.
Qed.

(** Registries that agree on every field are the same registry. *)
Lemma agree_all s s' : agree fields_in_order s s' → s = s'.
Proof.
  intros (Hf & Hr & Hg). destruct s, s'. simpl in *. subst.
  assert (∀ f, f ∈ fields_in_order) as Hall.
  { intros f. refine (bool_decide_unpack _ _). by destruct f. }
  f_equal.
  - apply (Hg F_baseTemplate), Hall.
  - apply (Hg F_clusterPkgsPageTemplate), Hall.
  - apply (Hg F_pkgsPageTmpl), Hall.
  - apply (Hg F_pkgPageTmpl), Hall.
  - apply (Hg F_pkgDiscussionPageTmpl), Hall.
  - apply (Hg F_supportPageTmpl), Hall.
  - apply (Hg F_bootstrapPageTmpl), Hall.
  - apply (Hg F_kubeconfigPageTmpl), Hall.
  - apply (Hg F_settingsPageTmpl), Hall.
  - apply (Hg F_repositoryPageTmpl), Hall.
  - apply (Hg F_pkgDetailHeaderTmpl), Hall.
  - apply (Hg F_pkgConfigInput), Hall.
  - apply (Hg F_pkgUninstallModalTmpl), Hall.
  - apply (Hg F_toastTmpl), Hall.
  - apply (Hg F_datalistTmpl), Hall.
  - apply (Hg F_pkgDiscussionBadgeTmpl), Hall.
  - apply (Hg F_yamlModalTmpl), Hall.
Qed.

Lemma pageTmpl_reads env fileName A s s' :
  F_baseTemplate ∈ A → agree A s s' →
  pageTmpl env s fileName = pageTmpl env s' fileName.
Proof.
  intros Hin (_ & _ & Hg). unfold pageTmpl.
  change (baseTemplate s) with (get F_baseTemplate s).
  change (baseTemplate s') with (get F_baseTemplate s').
  by rewrite (Hg F_baseTemplate Hin).
Qed.

Lemma componentTmpl_reads env id required A s s' :
  agree A s s' →
  componentTmpl env s id required = componentTmpl env s' id required.
Proof. intros (Hf & _). unfold componentTmpl. by rewrite Hf. Qed.

Lemma assignments_read_assigned env : reads_assigned [] (assignments env).
Proof.
  unfold assignments. cbn [reads_assigned fst snd].
  split.
  { intros s s' (Hf & _). by rewrite Hf. }
  repeat (split;
    [intros s s' Hagree;
     lazymatch goal with
     | |- pageTmpl _ _ _ = _ =>
         eapply pageTmpl_reads; [|exact Hagree];
         refine (bool_decide_unpack _ _); vm_compute; exact I
     | |- componentTmpl _ _ _ _ = _ =>
         eapply componentTmpl_reads; exact Hagree
     end|]).
  exact I.
Qed.

Lemma funcMap_clientset env t t2 :
  repoClientset t = repoClientset t2 → funcMap env t = funcMap env t2.
Proof. intros Heq. unfold funcMap. by rewrite Heq. Qed.

(** The result of [parseTemplates] depends on the registry it starts from
    through the clientset only. *)
Lemma parseTemplates_clientset env t t2 :
  repoClientset t = repoClientset t2 →
  parseTemplates env t = parseTemplates env t2.
Proof.
  intros Heq. unfold parseTemplates, parseTemplates_stmts.
  rewrite !(run_first (fun t => set_templateFuncs (funcMap env t) t)).
  rewrite (funcMap_clientset env t t2 Heq).
  pose proof (run_agree (assignments env) []
                (set_templateFuncs (funcMap env t2) t)
                (set_templateFuncs (funcMap env t2) t2)
                (assignments_read_assigned env)) as Halike.
  rewrite assignments_fields, app_nil_r in Halike.
  destruct (run _ (set_templateFuncs (funcMap env t2) t)) as [r|msg],
           (run _ (set_templateFuncs (funcMap env t2) t2)) as [r'|msg'];
    simpl in Halike.
  - f_equal. apply agree_all, Halike. split_and!; [done..|].
    intros f Hf. by apply elem_of_nil in Hf.
  - destruct Halike. split_and!; [done..|].
    intros f Hf. by apply elem_of_nil in Hf.
  - destruct Halike. split_and!; [done..|].
    intros f Hf. by apply elem_of_nil in Hf.
  - f_equal. apply Halike. split_and!; [done..|].
    intros f Hf. by apply elem_of_nil in Hf.
Qed.

Lemma run_assignments_clientset
    (l : list (Field * (templates → result template.Template))) :
  ∀ s s', run (map (fun a => assign a.1 a.2) l) s = Ok s' →
    repoClientset s' = repoClientset s.
Proof.
  induction l as [|[g e] l IH]; intros s s'.
  - simpl. by intros [= <-].
  - rewrite map_cons. cbn [fst snd]. intros Hrun.
    apply run_assign in Hrun as (v & Hv & Hrun).
    by apply IH in Hrun.
Qed.

Lemma parseTemplates_keeps_clientset env t t' :
  parseTemplates env t = Ok t' → repoClientset t' = repoClientset t.
Proof.
  unfold parseTemplates, parseTemplates_stmts.
  rewrite (run_first (fun t => set_templateFuncs (funcMap env t) t)).
  intros Hrun. by apply run_assignments_clientset in Hrun.
Qed.

(** X8: [parseTemplates] rebuilds the registry in full: what it returns, a
    registry or a panic, depends on the registry it starts from through the
    clientset only, which it keeps; no template of an earlier run is left.
    Run again on its result, with the same files, it returns that result. *)
Theorem parseTemplates_rebuilds (env : Env) (t : templates) :
  (∀ t2, repoClientset t2 = repoClientset t →
     parseTemplates env t2 = parseTemplates env t) ∧
  (∀ t', parseTemplates env t = Ok t' →
     repoClientset t' = repoClientset t ∧ parseTemplates env t' = Ok t').
Proof.
  split.
  - intros t2 Heq. by apply parseTemplates_clientset.
  - intros t' Hrun.
    pose proof (parseTemplates_keeps_clientset env t t' Hrun) as Hcs.
    split; [exact Hcs|].
    by rewrite (parseTemplates_clientset env t' t Hcs).
Qed.

Lemma parseTemplates_rebuilds_witness :
  repoClientset stale_templates = repoClientset new_templates ∧
  parseTemplates sample_env stale_templates
  = parseTemplates sample_env new_templates ∧
  ∃ t', parseTemplates sample_env new_templates = Ok t' ∧
        parseTemplates sample_env t' = Ok t'.
Proof.
  split; [reflexivity|]. split.
  - apply (proj1 (parseTemplates_rebuilds sample_env new_templates)).
    reflexivity.
  - assert (∃ t', parseTemplates sample_env new_templates = Ok t') as [t' Ht'].
    { apply is_ok_true. vm_compute. reflexivity. }
    exists t'. split; [exact Ht'|].
    apply (proj2 (parseTemplates_rebuilds sample_env new_templates) t' Ht').
Defined.

(** ** The files [parseTemplates] needs *)

Lemma Match_literal pattern : has_star pattern = false →
  ∀ name, path.Match pattern name = true → name = pattern.
Proof.
  induction pattern as [|c pattern IH]; intros Hstar name; simpl in *.
  - intros Hname. by apply bool_decide_eq_true in Hname.
  - destruct (decide (c = "*"%char)) as [->|Hne]; [done|].
    destruct name as [|d name]; [done|].
    destruct (decide (c = d)) as [->|Hcd]; [|done].
    intros Hm. by rewrite (IH Hstar name Hm).
Qed.

Lemma Match_literal_refl pattern :
  has_star pattern = false → path.Match pattern pattern = true.
Proof.
  induction pattern as [|c pattern IH]; intros Hstar; simpl in *.
  - done.
  - destruct (decide (c = "*"%char)) as [->|Hne]; [done|].
    rewrite decide_True by done. by apply IH.
Qed.

Lemma Glob_literal (fsys : template.FS) pattern :
  has_star pattern = false →
  (template.Glob fsys pattern ≠ [] ↔ pattern ∈ fsys.*1).
Proof.
  intros Hstar. split.
  - intros Hne. destruct (template.Glob fsys pattern) as [|name names] eqn:Hg;
      [done|].
    assert (name ∈ template.Glob fsys pattern) as Hin.
    { rewrite Hg. apply list_elem_of_here. }
    apply elem_of_Glob in Hin as [Hm Hin].
    by rewrite <- (Match_literal pattern Hstar name Hm).
  - intros Hin Hnil.
    assert (pattern ∈ template.Glob fsys pattern) as Hg.
    { apply elem_of_Glob. split; [by apply Match_literal_refl|done]. }
    rewrite Hnil in Hg. by apply elem_of_nil in Hg.
Qed.

Lemma globAll_nonempty fsys patterns filenames :
  template.globAll fsys patterns = inl filenames →
  Forall (fun pattern => template.Glob fsys pattern ≠ []) patterns.
Proof.
  revert filenames. induction patterns as [|pattern rest IH]; intros filenames;
    simpl; [by constructor|].
  destruct (template.Glob fsys pattern) as [|name list] eqn:Hg; [done|].
  destruct (template.globAll fsys rest) as [others|err] eqn:Hrest; [|done].
  intros _. constructor; [by rewrite Hg|]. by eapply IH.
Qed.

Lemma ParseFS_globs parser t fsys patterns t' :
  template.Must (template.ParseFS parser t fsys patterns) = Ok t' →
  Forall (fun pattern => template.Glob fsys pattern ≠ []) patterns.
Proof.
  unfold template.ParseFS.
  destruct (template.globAll fsys patterns) as [filenames|err] eqn:Hg; [|done].
  intros _. by eapply globAll_nonempty.
Qed.

Lemma pageTmpl_file env t fileName p :
  has_star (page_file fileName) = false →
  pageTmpl env t fileName = Ok p →
  page_file fileName ∈ (webFs env).*1.
Proof.
  intros Hstar. unfold pageTmpl. destruct (template.Clone (baseTemplate t))
    as [[base [err|]]|msg]; simpl; [done| |done].
  intros Hp. apply ParseFS_globs in Hp.
  apply Forall_cons in Hp as [Hpage _]. by apply Glob_literal in Hpage.
Qed.

Lemma componentTmpl_files env t id required c :
  Forall (fun r => has_star (component_file r) = false) (required ++ [id]) →
  componentTmpl env t id required = Ok c →
  Forall (fun r => component_file r ∈ (webFs env).*1) (required ++ [id]).
Proof.
  intros Hstar. unfold componentTmpl. rewrite required_files. intros Hc.
  apply ParseFS_globs in Hc.
  change [path.Join [componentsDir; id +:+ ".html"]]
    with (map component_file [id]) in Hc.
  rewrite app_nil_l, <- map_app in Hc. apply Forall_fmap in Hc.
  revert Hc Hstar. generalize (required ++ [id]). intros rs.
  induction rs as [|r rs' IH]; intros Hc Hstar; [constructor|].
  apply Forall_cons in Hc as [Hr Hc].
  apply Forall_cons in Hstar as [Hs Hstar].
  constructor; [|by apply IH]. simpl in Hr. by apply Glob_literal in Hr.
Qed.

Lemma parseTemplates_files (env : Env) (t t' : templates) :
  parseTemplates env t = Ok t' →
  Forall (fun name => name ∈ (webFs env).*1) needed_files.
Proof.
  intros H. unfold parseTemplates, parseTemplates_stmts in H.
  rewrite (run_first (fun t => set_templateFuncs (funcMap env t) t)) in H.
  unfold assignments in H. cbn [map fst snd] in H.
  run_step H base Hbase.
  run_step H p1 Hp1. run_step H p2 Hp2. run_step H p3 Hp3.
  run_step H p4 Hp4. run_step H p5 Hp5. run_step H p6 Hp6.
  run_step H p7 Hp7. run_step H p8 Hp8. run_step H p9 Hp9.
  run_step H c1 Hc1. run_step H c2 Hc2. run_step H c3 Hc3.
  run_step H c4 Hc4. run_step H c5 Hc5. run_step H c6 Hc6.
  run_step H c7 Hc7.
  clear H.
  apply ParseFS_globs in Hbase. apply Forall_cons in Hbase as [Hbase _].
  apply Glob_literal in Hbase; [|reflexivity].
  apply pageTmpl_file in Hp1; [|reflexivity].
  apply pageTmpl_file in Hp2; [|reflexivity].
  apply pageTmpl_file in Hp3; [|reflexivity].
  apply pageTmpl_file in Hp4; [|reflexivity].
  apply pageTmpl_file in Hp5; [|reflexivity].
  apply pageTmpl_file in Hp6; [|reflexivity].
  apply pageTmpl_file in Hp7; [|reflexivity].
  apply pageTmpl_file in Hp8; [|reflexivity].
  apply pageTmpl_file in Hp9; [|reflexivity].
  apply componentTmpl_files in Hc1; [|repeat constructor].
  apply componentTmpl_files in Hc2; [|repeat constructor].
  apply componentTmpl_files in Hc3; [|repeat constructor].
  apply componentTmpl_files in Hc4; [|repeat constructor].
  apply componentTmpl_files in Hc5; [|repeat constructor].
  apply componentTmpl_files in Hc6; [|repeat constructor].
  apply componentTmpl_files in Hc7; [|repeat constructor].
  apply Forall_cons in Hc1 as [Hbtns Hc1]. apply Forall_cons in Hc1 as [Hheader _].
  apply Forall_cons in Hc2 as [Hdatalist Hc2]. apply Forall_cons in Hc2 as [Hinput _].
  apply Forall_cons in Hc3 as [Hmodal _]. apply Forall_cons in Hc4 as [Htoast _].
  apply Forall_cons in Hc6 as [Hbadge _]. apply Forall_cons in Hc7 as [Hyaml _].
  unfold needed_files.
  repeat (constructor; [first
    [ exact Hbase | exact Hp1 | exact Hp2 | exact Hp3 | exact Hp4 | exact Hp5
    | exact Hp6 | exact Hp7 | exact Hp8 | exact Hp9 | exact Hbtns
    | exact Hheader | exact Hdatalist | exact Hinput | exact Hmodal
    | exact Htoast | exact Hbadge | exact Hyaml ]|]).
  constructor.
Qed.

(** X9: [parseTemplates] returns only when the file system has every file it
    names: the layout, the nine pages, and the eight components compiled on
    their own or listed with one; with one of them missing it panics. *)
Theorem parseTemplates_needs_files (env : Env) (t : templates) :
  (∀ t', parseTemplates env t = Ok t' →
     Forall (fun name => name ∈ (webFs env).*1) needed_files) ∧
  (∀ name, name ∈ needed_files → name ∉ (webFs env).*1 →
     ∃ msg, parseTemplates env t = Panic msg).
Proof.
  split; [apply parseTemplates_files|].
  intros name Hin Hmissing.
  destruct (parseTemplates env t) as [t'|msg] eqn:Hrun; [|by exists msg].
  apply parseTemplates_files in Hrun. rewrite Forall_forall in Hrun.
  destruct Hmissing. by apply Hrun.
Qed.

Lemma parseTemplates_needs_files_witness :
  (∃ t', parseTemplates sample_env new_templates = Ok t' ∧
         Forall (fun name => name ∈ sample_fs.*1) needed_files) ∧
  (component_file "toast" ∈ needed_files ∧
   (component_file "toast" ∉ no_toast_fs.*1) ∧
   ∃ msg, parseTemplates (with_webFs sample_env no_toast_fs) new_templates
          = Panic msg).
Proof.
  split.
  - assert (∃ t', parseTemplates sample_env new_templates = Ok t') as [t' Ht'].
    { apply is_ok_true. vm_compute. reflexivity. }
    exists t'. split; [exact Ht'|].
    apply (proj1 (parseTemplates_needs_files sample_env new_templates) t' Ht').
  - assert (component_file "toast" ∈ needed_files) as Hin.
    { refine (bool_decide_unpack _ _). vm_compute. exact I. }
    assert (component_file "toast" ∉ no_toast_fs.*1) as Hmissing.
    { refine (bool_decide_unpack _ _). vm_compute. exact I. }
    split; [exact Hin|]. split; [exact Hmissing|].
    apply (proj2 (parseTemplates_needs_files
                    (with_webFs sample_env no_toast_fs) new_templates)
             (component_file "toast") Hin Hmissing).
Defined.

Example parseTemplates_without_toast :
  is_ok (parseTemplates (with_webFs sample_env no_toast_fs) new_templates) = false.
Proof. vm_compute. reflexivity. Qed.

(** ** When [parseTemplates] returns *)

Lemma ReadFile_is_Some (fsys : template.FS) name :
  name ∈ fsys.*1 → is_Some (template.ReadFile fsys name).
Proof.
  intros Hin. apply list_elem_of_fmap in Hin as ([name' s] & -> & Hin).
  unfold template.ReadFile. simpl.
  destruct (list_find_elem_of (fun f : string * string => f.1 = name')
              fsys (name', s) Hin eq_refl) as [[i f] ->].
  by eexists.
Qed.

Lemma parseFiles_accepts parser fsys filenames : ∀ t,
  (∀ names text, parser names text = None) →
  Forall (fun name => name ∈ fsys.*1) filenames →
  ∃ t', template.parseFiles parser fsys t filenames = (t', None).
Proof.
  induction filenames as [|filename rest IH]; intros t Hacc Hall; simpl.
  - by exists t.
  - apply Forall_cons in Hall as [Hin Hall].
    destruct (ReadFile_is_Some fsys filename Hin) as [s ->].
    rewrite Hacc. by apply IH.
Qed.

Lemma globAll_found fsys patterns :
  Forall (fun pattern => template.Glob fsys pattern ≠ []) patterns →
  template.globAll fsys patterns = inl (patterns ≫= template.Glob fsys).
Proof.
  induction 1 as [|pattern rest Hne _ IH]; simpl; [done|].
  destruct (template.Glob fsys pattern) as [|name list] eqn:Hg; [done|].
  by rewrite IH.
Qed.

Lemma ParseFS_accepts parser t fsys pattern patterns :
  (∀ names text, parser names text = None) →
  Forall (fun pattern => template.Glob fsys pattern ≠ []) (pattern :: patterns) →
  ∃ t', template.Must (template.ParseFS parser t fsys (pattern :: patterns))
        = Ok t'.
Proof.
  intros Hacc Hall. unfold template.ParseFS. rewrite (globAll_found _ _ Hall).
  destruct (parseFiles_accepts parser fsys
              ((pattern :: patterns) ≫= template.Glob fsys) t Hacc)
    as [t' Ht'].
  { apply Forall_forall. intros name Hname.
    apply list_elem_of_bind in Hname as (p & Hname & _).
    by apply elem_of_Glob in Hname as [_ Hname]. }
  rewrite Ht'.
  apply Forall_cons in Hall as [Hne _].
  destruct ((pattern :: patterns) ≫= template.Glob fsys) as [|name names] eqn:Hb.
  - rewrite bind_cons in Hb. apply app_eq_nil in Hb as [Hb _]. done.
  - by exists t'.
Qed.

Lemma pageTmpl_accepts env t base fileName :
  (∀ names text, tmpl_parser env names text = None) →
  get F_baseTemplate t = Some base →
  has_star (page_file fileName) = false →
  page_file fileName ∈ (webFs env).*1 →
  template.Glob (webFs env) all_components ≠ [] →
  ∃ p, pageTmpl env t fileName = Ok p.
Proof.
  intros Hacc Hbase Hstar Hpage Hcomps. unfold pageTmpl.
  change (baseTemplate t) with (get F_baseTemplate t). rewrite Hbase. simpl.
  apply ParseFS_accepts; [done|].
  constructor; [by apply Glob_literal|]. by constructor.
Qed.

Lemma componentTmpl_accepts env t id required :
  (∀ names text, tmpl_parser env names text = None) →
  Forall (fun r => has_star (component_file r) = false) (required ++ [id]) →
  Forall (fun r => component_file r ∈ (webFs env).*1) (required ++ [id]) →
  ∃ c, componentTmpl env t id required = Ok c.
Proof.
  intros Hacc Hstar Hfiles. unfold componentTmpl.
  rewrite required_files, app_nil_l.
  change [path.Join [componentsDir; id +:+ ".html"]]
    with (map component_file [id]).
  rewrite <- map_app.
  assert (Forall (fun pattern => template.Glob (webFs env) pattern ≠ [])
            (map component_file (required ++ [id]))) as Hall.
  { apply Forall_fmap. revert Hstar Hfiles. generalize (required ++ [id]).
    intros rs. induction rs as [|r rs' IH]; intros Hstar Hfiles; [constructor|].
    apply Forall_cons in Hstar as [Hs Hstar].
    apply Forall_cons in Hfiles as [Hf Hfiles].
    constructor; [|by apply IH]. simpl. by apply Glob_literal. }
  destruct (map component_file (required ++ [id])) as [|pattern patterns] eqn:Hm.
  - destruct required; discriminate Hm.
  - by apply ParseFS_accepts.
Qed.

Lemma run_assign_returns f e rest s :
  (∃ v, e s = Ok v) →
  (∀ v, ∃ t', run rest (set f (Some v) s) = Ok t') →
  ∃ t', run (assign f e :: rest) s = Ok t'.
Proof.
  intros [v Hv] Hrest. rewrite run_assign_eq, Hv. apply Hrest.
Qed.

(** One assignment of a page or of a component in a run that returns. *)
Ltac returns_step env base Hacc Hfiles Hcomps :=
  apply run_assign_returns;
  [ lazymatch goal with
    | |- ∃ p, pageTmpl _ _ _ = Ok p =>
        apply (pageTmpl_accepts env _ base _ Hacc);
        [ rewrite ?get_set_ne by done; apply get_set_eq
        | reflexivity
        | apply Hfiles; refine (bool_decide_unpack _ _); vm_compute; exact I
        | exact Hcomps ]
    | |- ∃ c, componentTmpl _ _ _ _ = Ok c =>
        apply (componentTmpl_accepts env _ _ _ Hacc);
        [ repeat constructor
        | repeat (constructor;
            [apply Hfiles; refine (bool_decide_unpack _ _); vm_compute; exact I|]);
          constructor ]
    end
  | let v := fresh "v" in intros v ].

(** X10: with a parser that accepts every text, as for files that are well
    formed, [parseTemplates] returns from any registry, the zero registry
    included, as soon as the file system has the files it names: the base
    layout is assigned before a page clones it. *)
Theorem parseTemplates_returns (env : Env) (t : templates) :
  (∀ names text, tmpl_parser env names text = None) →
  Forall (fun name => name ∈ (webFs env).*1) needed_files →
  ∃ t', parseTemplates env t = Ok t'.
Proof.
  intros Hacc Hfiles. rewrite Forall_forall in Hfiles.
  assert (template.Glob (webFs env) all_components ≠ []) as Hcomps.
  { intros Hnil.
    assert (component_file "toast" ∈ template.Glob (webFs env) all_components)
      as Hin.
    { apply elem_of_Glob. split; [reflexivity|].
      apply Hfiles. refine (bool_decide_unpack _ _). vm_compute. exact I. }
    rewrite Hnil in Hin. by apply elem_of_nil in Hin. }
  unfold parseTemplates, parseTemplates_stmts.
  rewrite (run_first (fun t => set_templateFuncs (funcMap env t) t)).
  unfold assignments. cbn [map fst snd].
  apply run_assign_returns.
  { apply ParseFS_accepts; [exact Hacc|]. constructor; [|constructor].
    apply Glob_literal; [reflexivity|].
    apply Hfiles. refine (bool_decide_unpack _ _). vm_compute. exact I. }
  intros base.
  do 16 returns_step env base Hacc Hfiles Hcomps.
  by eexists.
Qed.

Lemma parseTemplates_returns_witness :
  (∀ names text, tmpl_parser sample_env names text = None) ∧
  Forall (fun name => name ∈ (webFs sample_env).*1) needed_files ∧
  ∃ t', parseTemplates sample_env new_templates = Ok t'.
Proof.
  assert (∀ names text, tmpl_parser sample_env names text = None) as Hacc.
  { intros names text. reflexivity. }
  assert (Forall (fun name => name ∈ (webFs sample_env).*1) needed_files)
    as Hfiles.
  { refine (bool_decide_unpack _ _). vm_compute. exact I. }
  split; [exact Hacc|]. split; [exact Hfiles|].
  apply (parseTemplates_returns sample_env new_templates Hacc Hfiles).
Defined.

(** ** The registry after the events *)

Lemma eventLoop_last env events : ∀ t calls t' ev fsys,
  eventLoop env events t = (calls, Ok t') →
  last events = Some (ev, fsys) →
  parseTemplates (with_webFs env fsys) t = Ok t'.
Proof.
  induction events as [|[ev1 fs1] events IH]; intros t calls t' ev fsys;
    [done|].
  cbn [eventLoop].
  destruct (parseTemplates (with_webFs env fs1) t) as [t1|msg] eqn:Hp; [|done].
  destruct events as [|c events].
  - simpl. intros [= <- <-] [= <- <-]. exact Hp.
  - destruct (eventLoop env (c :: events) t1) as [calls1 r] eqn:Hloop.
    intros [= <- ->] Hlast. rewrite last_cons_cons in Hlast.
    rewrite <- (IH t1 calls1 t' ev fsys Hloop Hlast).
    apply parseTemplates_clientset. symmetry.
    by eapply parseTemplates_keeps_clientset.
Qed.

(** X11: when the loop of the watcher has handled the events that arrived,
    the registry is the one [parseTemplates] gives for the files as they
    were at the last event, started from the registry the loop started
    from: nothing of the compilations in between is left. *)
Theorem eventLoop_last_files (env : Env) (events : list fsnotify.change)
    (t t' : templates) (calls : list fsnotify.Event)
    (ev : fsnotify.Event) (fsys : template.FS) :
  eventLoop env events t = (calls, Ok t') →
  last events = Some (ev, fsys) →
  parseTemplates (with_webFs env fsys) t = Ok t'.
Proof. apply eventLoop_last. Qed.

Lemma eventLoop_last_files_witness :
  ∃ t',
    eventLoop sample_env sample_changes new_templates
    = (sample_changes.*1, Ok t') ∧
    parseTemplates (with_webFs sample_env edited_fs) new_templates = Ok t'.
Proof.
  destruct (eventLoop_returns sample_env sample_changes new_templates)
    as [t' Ht'].
  { unfold sample_changes.
    constructor; [exact sample_fs_compiles|].
    constructor; [exact edited_fs_compiles|].
    constructor; [exact edited_fs_compiles|].
    constructor. }
  exists t'. split; [exact Ht'|].
  apply (eventLoop_last_files sample_env sample_changes new_templates t'
           sample_changes.*1
           (fsnotify.mkEvent "internal/web/templates/pages/old.html" fsnotify.Remove)
           edited_fs Ht').
  reflexivity.
Defined.

(** * More about the watcher *)

Lemma watchTemplates_created (os : fsnotify.OS) :
  fsnotify.newWatcher_err os = None → ∃ w, watchTemplates os = Ok w.
Proof.
  intros Hnew. unfold watchTemplates, fsnotify.NewWatcher, fsnotify.Add.
  rewrite Hnew. simpl.
  destruct (fsnotify.add_err os _); simpl;
    destruct (fsnotify.add_err os _); simpl;
    destruct (fsnotify.add_err os _); simpl; by eexists.
Qed.

Lemma watchTemplates_not_created (os : fsnotify.OS) err :
  fsnotify.newWatcher_err os = Some err →
  watchTemplates os = Panic "invalid memory address or nil pointer dereference".
Proof.
  intros Hnew. unfold watchTemplates, fsnotify.NewWatcher. by rewrite Hnew.
Qed.

(** X12: [watchTemplates] does not look at the error of [NewWatcher] before
    it registers the directories: when no watcher could be created it calls
    [Add] on the nil watcher and panics, so that error is never returned;
    it returns exactly when a watcher was created. *)
Theorem watchTemplates_nil_watcher (os : fsnotify.OS) :
  (∀ err, fsnotify.newWatcher_err os = Some err →
     watchTemplates os
     = Panic "invalid memory address or nil pointer dereference") ∧
  ((∃ w, watchTemplates os = Ok w) ↔ fsnotify.newWatcher_err os = None).
Proof.
  split; [apply watchTemplates_not_created|]. split.
  - intros [w Hw]. by destruct (watchTemplates_cases os w Hw) as (Hnew & _).
  - apply watchTemplates_created.
Qed.

Lemma watchTemplates_nil_watcher_witness :
  fsnotify.newWatcher_err no_watcher_os
  = Some (errorString "too many open files") ∧
  watchTemplates no_watcher_os
  = Panic "invalid memory address or nil pointer dereference".
Proof.
  split; [reflexivity|].
  apply (proj1 (watchTemplates_nil_watcher no_watcher_os)
           (errorString "too many open files")).
  reflexivity.
Defined.



(** * The loop of the watcher, event by event *)

(** The loop on events that arrive after others: it goes on from the
    registry the others left. *)
Lemma eventLoop_app env before rest : ∀ t calls t1,
  eventLoop env before t = (calls, Ok t1) →
  eventLoop env (before ++ rest) t
  = (calls ++ (eventLoop env rest t1).1, (eventLoop env rest t1).2).
Proof.
  induction before as [|[ev fsys] before IH]; intros t calls t1.
  - simpl. intros [= <- <-]. by destruct (eventLoop env rest t).
  - cbn [eventLoop app].
    destruct (parseTemplates (with_webFs env fsys) t) as [t2|msg]; [|done].
    destruct (eventLoop env before t2) as [calls' r] eqn:Hb.
    intros [= <- ->]. by rewrite (IH t2 calls' t1 Hb).
Qed.

Lemma eventLoop_cons env c rest t :
  eventLoop env (c :: rest) t
  = match parseTemplates (with_webFs env c.2) t with
    | Ok t1 => (c.1 :: (eventLoop env rest t1).1, (eventLoop env rest t1).2)
    | Panic msg => ([c.1], Panic msg)
    end.
Proof.
  destruct c as [ev fsys]. cbn [eventLoop fst snd].
  destruct (parseTemplates (with_webFs env fsys) t) as [t1|msg]; [|done].
  by destruct (eventLoop env rest t1).
Qed.

(** The loop returning, the files compiled at every event. *)
Lemma eventLoop_ok_compiled env events : ∀ t t0 t',
  repoClientset t = repoClientset t0 →
  (eventLoop env events t).2 = Ok t' →
  Forall (fun c : fsnotify.change =>
            is_ok (parseTemplates (with_webFs env c.2) t0) = true) events.
Proof.
  induction events as [|c events IH]; intros t t0 t' Hcs; [by constructor|].
  rewrite eventLoop_cons.
  destruct (parseTemplates (with_webFs env c.2) t) as [t1|msg] eqn:Hp; [|done].
  cbn [snd]. intros Hr. constructor.
  - by rewrite <- (parseTemplates_clientset _ t t0 Hcs), Hp.
  - apply (IH t1 t0 t'); [|done].
    rewrite <- Hcs. by eapply parseTemplates_keeps_clientset.
Qed.

(** The loop ending in a panic: it is the panic of the call for the first
    event at which the files do not compile, which is the last call. *)
Lemma eventLoop_panic_first env events : ∀ t t0 msg,
  repoClientset t = repoClientset t0 →
  (eventLoop env events t).2 = Panic msg →
  ∃ before c after,
    events = before ++ c :: after ∧
    (eventLoop env events t).1 = (before ++ [c]).*1 ∧
    parseTemplates (with_webFs env c.2) t0 = Panic msg ∧
    Forall (fun b : fsnotify.change =>
              is_ok (parseTemplates (with_webFs env b.2) t0) = true) before.
Proof.
  induction events as [|c events IH]; intros t t0 msg Hcs; [done|].
  rewrite eventLoop_cons.
  destruct (parseTemplates (with_webFs env c.2) t) as [t1|msg'] eqn:Hp.
  - cbn [fst snd]. intros Hr.
    assert (repoClientset t1 = repoClientset t0) as Hcs1.
    { rewrite <- Hcs. by eapply parseTemplates_keeps_clientset. }
    destruct (IH t1 t0 msg Hcs1 Hr)
      as (before & c' & after & -> & Hcalls & Hpanic & Hbefore).
    exists (c :: before), c', after. split_and!; [done| |done|].
    + rewrite Hcalls. reflexivity.
    + constructor; [|done].
      by rewrite <- (parseTemplates_clientset _ t t0 Hcs), Hp.
  - cbn [fst snd]. intros [= ->].
    exists [], c, events. split_and!; [done|done| |by constructor].
    by rewrite <- (parseTemplates_clientset _ t t0 Hcs).
Qed.

(** C5: the loop of the watcher calls [parseTemplates] exactly once for
    every event that arrives, whatever its kind and its file, in the order of
    arrival, on the registry the call before left and the files as they are
    at the event. When the files compile at every event, the calls are the
    events, one for one, and the registry at the end is the one
    [parseTemplates] gives for the files of the last event. The loop
    returning, the calls are the events and the files compiled at each of
    them. A call that panics is the last: it is the call for the first event
    whose files do not compile. After any events the loop returned from, the
    next event leads to one call of [parseTemplates] on the registry they
    left, whose result is the registry the loop goes on with. *)
Theorem eventLoop_one_call_per_event (env : Env)
    (events : list fsnotify.change) (t : templates) :
  (Forall (fun c : fsnotify.change => compiles env c.2) events →
     ∃ t', eventLoop env events t = (events.*1, Ok t') ∧
           match last events with
           | Some c => parseTemplates (with_webFs env c.2) t = Ok t'
           | None => t' = t
           end) ∧
  (∀ t', (eventLoop env events t).2 = Ok t' →
     (eventLoop env events t).1 = events.*1 ∧
     length (eventLoop env events t).1 = length events ∧
     Forall (fun c : fsnotify.change =>
               is_ok (parseTemplates (with_webFs env c.2) t) = true) events) ∧
  (∀ msg, (eventLoop env events t).2 = Panic msg →
     ∃ before c after,
       events = before ++ c :: after ∧
       (eventLoop env events t).1 = (before ++ [c]).*1 ∧
       parseTemplates (with_webFs env c.2) t = Panic msg ∧
       Forall (fun b : fsnotify.change =>
                 is_ok (parseTemplates (with_webFs env b.2) t) = true) before) ∧
  (∀ before c after calls t1,
     events = before ++ c :: after →
     eventLoop env before t = (calls, Ok t1) →
     calls = before.*1 ∧
     eventLoop env events t
     = match parseTemplates (with_webFs env c.2) t1 with
       | Ok t2 =>
           (calls ++ c.1 :: (eventLoop env after t2).1,
            (eventLoop env after t2).2)
       | Panic msg => (calls ++ [c.1], Panic msg)
       end).
Proof.
  split_and!.
  - intros Hall. destruct (eventLoop_returns env events t Hall) as [t' Ht'].
    exists t'. split; [exact Ht'|].
    destruct (last events) as [[ev fsys]|] eqn:Hlast.
    + exact (eventLoop_last env events t _ t' ev fsys Ht' Hlast).
    + apply last_None in Hlast. subst events. simpl in Ht'. by injection Ht'.
  - intros t' Hr. rewrite (eventLoop_ok env events t t' Hr).
    split_and!; [done|by rewrite length_fmap|].
    by apply (eventLoop_ok_compiled env events t t t').
  - intros msg Hr. by apply (eventLoop_panic_first env events t t msg).
  - intros before c after calls t1 -> Hbefore. split.
    + pose proof (eventLoop_ok env before t t1) as Hok.
      rewrite Hbefore in Hok. by apply Hok.
    + rewrite (eventLoop_app env before (c :: after) t calls t1 Hbefore).
      rewrite eventLoop_cons.
      by destruct (parseTemplates (with_webFs env c.2) t1).
Qed.

Lemma eventLoop_one_call_per_event_witness :
  Forall (fun c : fsnotify.change => compiles sample_env c.2) sample_changes ∧
  ∃ t', eventLoop sample_env sample_changes new_templates
        = (sample_changes.*1, Ok t') ∧
        parseTemplates (with_webFs sample_env edited_fs) new_templates = Ok t'.
Proof.
  assert (Forall (fun c : fsnotify.change => compiles sample_env c.2)
            sample_changes) as Hall.
  { unfold sample_changes.
    constructor; [exact sample_fs_compiles|].
    constructor; [exact edited_fs_compiles|].
    constructor; [exact edited_fs_compiles|].
    constructor. }
  split; [exact Hall|].
  destruct (proj1 (eventLoop_one_call_per_event sample_env sample_changes
                     new_templates) Hall) as (t' & Hloop & Hlast).
  exists t'. split; [exact Hloop|exact Hlast].
Defined.

(** The loop does compile: on the sample changes the registry it ends with
    has the edited base layout, which the registry it started with had
    not. *)
Example eventLoop_sample_changes :
  texts_of new_templates F_baseTemplate = None ∧
  match (eventLoop sample_env sample_changes new_templates).2 with
  | Ok t' =>
      texts_of t' F_baseTemplate
      = Some [("base.html", "<html lang=en></html>")]
  | Panic _ => False
  end.
Proof. vm_compute. split; reflexivity. Qed.

(** With a broken file system at the first event the loop makes one call and
    ends, though the files compile at the next event. *)
Example eventLoop_panics_at_first :
  (eventLoop sample_env
     [ (fsnotify.mkEvent "internal/web/templates/components/toast.html"
          fsnotify.Remove, no_toast_fs);
       (fsnotify.mkEvent "internal/web/templates/components/toast.html"
          fsnotify.Create, sample_fs) ]
     new_templates).1
  = [ fsnotify.mkEvent "internal/web/templates/components/toast.html"
        fsnotify.Remove ].
Proof. vm_compute. reflexivity. Qed.


